(** * Cache Resell Estimator: the form controller of [src/app/page.tsx]

    A shallow embedding of the [Home] component: its four pieces of React
    state, the handlers [handleChange], [validateForm], [handleSubmit] and
    [handleReset], and the completion request that [handleSubmit] awaits.

    JavaScript strings are sequences of UTF-16 code units; they are modelled
    as [list N], one number per code unit, so that [trim], the regular
    expression [/^\d+(\.\d{1,2})?$/] and the replacement [/[^0-9.]/g] act on
    the same units as in the browser (a number above 0xFFFF stands for no
    unit; it is neither blank, nor a digit, nor a point).  Property names of
    the [errors] object are Rocq strings, the keys of a [gmap]. *)

From Stdlib Require Import NArith QArith Ascii String.
From stdpp Require Import gmap strings list numbers.

Local Open Scope N_scope.

(** ** Strings *)

Abbreviation jsstring := (list N).

(** A source literal, code unit by code unit (the literals are all ASCII). *)
Fixpoint js (s : string) : jsstring :=
  match s with
  | EmptyString => []
  | String a s' => N_of_ascii a :: js s'
  end.

(** [!s] on a string: the empty string is the only falsy one. *)
Definition falsy (s : jsstring) : bool :=
  match s with
  | [] => true
  | _ :: _ => false
  end.

(** [a || b] on strings. *)
Definition or_else (a b : jsstring) : jsstring :=
  if falsy a then b else a.

(** [\d] and [0-9]: the ten ASCII digits (no [u] or [i] flag is involved). *)
Definition isDigit (c : N) : bool := (0x30 <=? c) && (c <=? 0x39).

(** The literal [.] of both expressions. *)
Definition isDot (c : N) : bool := c =? 0x2E.

(** WhiteSpace and LineTerminator of ECMAScript, the code units that
    [String.prototype.trim] removes. *)
Definition isWhiteSpaceOrLineTerminator (c : N) : bool :=
  (c =? 0x09) || (c =? 0x0A) || (c =? 0x0B) || (c =? 0x0C) || (c =? 0x0D)
  || (c =? 0x20) || (c =? 0xA0) || (c =? 0x1680)
  || ((0x2000 <=? c) && (c <=? 0x200A))
  || (c =? 0x2028) || (c =? 0x2029) || (c =? 0x202F) || (c =? 0x205F)
  || (c =? 0x3000) || (c =? 0xFEFF).

Abbreviation blank c := (isWhiteSpaceOrLineTerminator c = true).

Fixpoint trimStart (s : jsstring) : jsstring :=
  match s with
  | [] => []
  | c :: s' => if isWhiteSpaceOrLineTerminator c then trimStart s' else s
  end.

Definition trimEnd (s : jsstring) : jsstring :=
  reverse (trimStart (reverse s)).

(** [s.trim()] *)
Definition trim (s : jsstring) : jsstring := trimEnd (trimStart s).

(** ** Regular expressions

    The two expressions of the source use classes, sequence, [+], [?] and
    [{1,2}] only, so matching is language membership; [test] decides it with
    Brzozowski derivatives. *)

Inductive RegExp : Type :=
| RNone                               (* matches nothing *)
| REps                                (* the empty match *)
| RClass (cls : N → bool)             (* one code unit of a class *)
| RSeq (r1 r2 : RegExp)
| RAlt (r1 r2 : RegExp)
| RStar (r : RegExp).

Definition RPlus (r : RegExp) : RegExp := RSeq r (RStar r).       (* r+ *)
Definition ROpt (r : RegExp) : RegExp := RAlt r REps.             (* r? *)
Definition ROneOrTwo (r : RegExp) : RegExp := RSeq r (ROpt r).    (* r{1,2} *)

Fixpoint nullable (r : RegExp) : bool :=
  match r with
  | RNone => false
  | REps => true
  | RClass _ => false
  | RSeq r1 r2 => nullable r1 && nullable r2
  | RAlt r1 r2 => nullable r1 || nullable r2
  | RStar _ => true
  end.

Fixpoint deriv (c : N) (r : RegExp) : RegExp :=
  match r with
  | RNone => RNone
  | REps => RNone
  | RClass cls => if cls c then REps else RNone
  | RSeq r1 r2 =>
      if nullable r1
      then RAlt (RSeq (deriv c r1) r2) (deriv c r2)
      else RSeq (deriv c r1) r2
  | RAlt r1 r2 => RAlt (deriv c r1) (deriv c r2)
  | RStar r1 => RSeq (deriv c r1) (RStar r1)
  end.

(** [/^r$/.test(s)]: without the [m] flag the anchors are the two ends of
    the input, so the whole of [s] has to match. *)
Fixpoint test (r : RegExp) (s : jsstring) : bool :=
  match s with
  | [] => nullable r
  | c :: s' => test (deriv c r) s'
  end.

(** [/^\d+(\.\d{1,2})?$/] *)
Definition priceRegExp : RegExp :=
  RSeq (RPlus (RClass isDigit))
       (ROpt (RSeq (RClass isDot) (ROneOrTwo (RClass isDigit)))).

(** [[^0-9.]], the class of [/[^0-9.]/g]. *)
Definition notNumeric (c : N) : bool := negb (isDigit c || isDot c).

(** [s.replace(/[cls]/g, by)] for a one-class expression: every code unit of
    the class is a match of length one and is replaced, the others are
    copied. *)
Definition replaceClassAll (cls : N → bool) (by_ : jsstring) (s : jsstring)
  : jsstring :=
  s ≫= (λ c, if cls c then by_ else [c]).

(** The language of a regular expression. *)
Inductive matches : RegExp → jsstring → Prop :=
| matches_eps : matches REps []
| matches_class cls c : cls c = true → matches (RClass cls) [c]
| matches_seq r1 r2 s1 s2 :
    matches r1 s1 → matches r2 s2 → matches (RSeq r1 r2) (s1 ++ s2)
| matches_alt_l r1 r2 s : matches r1 s → matches (RAlt r1 r2) s
| matches_alt_r r1 r2 s : matches r2 s → matches (RAlt r1 r2) s
| matches_star_nil r : matches (RStar r) []
| matches_star_app r s1 s2 :
    matches r s1 → matches (RStar r) s2 → matches (RStar r) (s1 ++ s2).

(** The price pattern in words: one or more digits, then optionally a
    decimal point followed by one or two digits, and nothing else. *)
Definition price_pattern (s : jsstring) : Prop :=
  ∃ whole frac : jsstring,
    s = whole ++ frac ∧ whole ≠ [] ∧ Forall (λ c, isDigit c = true) whole ∧
    (frac = [] ∨
     ∃ ds : jsstring, frac = 0x2E :: ds ∧ (length ds = 1%nat ∨ length ds = 2%nat) ∧
                      Forall (λ c, isDigit c = true) ds).

(** ** The form *)

Inductive ClothingUse := NotWorn | LightWear | MediumWear | HeavyWear.
Inductive YearsOld := LessThan1Year | Years1To2 | Years2To4 | Years4Plus.

(** The string each member of the two literal unions is. *)
Definition clothingUse_string (u : ClothingUse) : jsstring :=
  match u with
  | NotWorn => js "Not Worn"
  | LightWear => js "Light Wear"
  | MediumWear => js "Medium Wear"
  | HeavyWear => js "Heavy Wear"
  end.

Definition yearsOld_string (y : YearsOld) : jsstring :=
  match y with
  | LessThan1Year => js "Less than 1 year"
  | Years1To2 => js "1-2 years"
  | Years2To4 => js "2-4 years"
  | Years4Plus => js "4+ years"
  end.

Record FormData := {
  brand : jsstring;
  category : jsstring;
  originalPrice : jsstring;
  clothingUse : ClothingUse;
  yearsOld : YearsOld;
}.

Record Result := {
  estimatedPrice : jsstring;
  data : FormData;
}.

(** The initial value of [formData], which [handleReset] writes again. *)
Definition defaultFormData : FormData :=
  {| brand := []; category := []; originalPrice := [];
     clothingUse := NotWorn; yearsOld := LessThan1Year |}.

(** The object [newErrors] that [validateForm] builds from [formData]. *)
Definition newErrors (fd : FormData) : gmap string jsstring :=
  let e0 : gmap string jsstring := ∅ in
  let e1 :=
    if falsy (trim (brand fd))
    then <["brand" := js "Brand name is required"]> e0 else e0 in
  let e2 :=
    if falsy (trim (category fd))
    then <["category" := js "Category is required"]> e1 else e1 in
  if falsy (trim (originalPrice fd))
  then <["originalPrice" := js "Original price is required"]> e2
  else if negb (test priceRegExp (originalPrice fd))
       then <["originalPrice" := js "Please enter a valid number"]> e2
       else e2.

(** [Object.keys(o)] *)
Definition Object_keys {A} (o : gmap string A) : list string :=
  (map_to_list o).*1.

(** ** The completion request *)

Inductive Role := system | user.

Record ChatMessage := {
  role : Role;
  content : jsstring;
}.

(** The argument of [client.chat.completions.create]. *)
Record CreateParams := {
  model : jsstring;
  messages : list ChatMessage;
  max_tokens : N;
  temperature : Q;
  n : N;
}.

(** What the handler reads of a response: [choices[i].message.content],
    a string or [null]. *)
Record Choice := { message_content : option jsstring }.
Record ChatCompletion := { choices : list Choice }.

(** What can reach the [catch] clause: the client rejects (no connection: no
    status; a status outside 2xx; a body it cannot decode), or
    [response.choices[0]] is [undefined] and reading [.message] throws. *)
Inductive Thrown :=
| APIError (status : option N)
| TypeError.

Inductive Settled :=
| Fulfilled (response : ChatCompletion)
| Rejected (error : Thrown).

(** The template literal of the user message. *)
Definition prompt (fd : FormData) : jsstring :=
  js "Estimate the resale value of a " ++ category fd
  ++ js " from " ++ brand fd
  ++ js " that is " ++ clothingUse_string (clothingUse fd)
  ++ js " and " ++ yearsOld_string (yearsOld fd)
  ++ js " old. The original price was $" ++ originalPrice fd
  ++ js ". Output only the number amount you think it would cost.".

Definition createParams (fd : FormData) : CreateParams :=
  {| model := js "gpt-4o-mini-2024-07-18";
     messages :=
       [ {| role := system; content := js "You are a helpful assistant." |};
         {| role := user; content := prompt fd |} ];
     max_tokens := 300;
     temperature := (7 # 10)%Q;
     n := 1 |}.

(** ** State

    The four [useState] cells, and what lies outside the component: the calls
    made to the client, the activations of [handleSubmit] suspended at their
    [await] (each with the [formData] of its closure), and the console. *)

Record State := {
  formData : FormData;
  result : option Result;
  errors : gmap string (option jsstring);
  isLoading : bool;
  calls : list CreateParams;
  awaiting : list FormData;
  console : list Thrown;
}.

Definition setFormData (v : FormData) (s : State) : State :=
  {| formData := v; result := result s; errors := errors s;
     isLoading := isLoading s; calls := calls s; awaiting := awaiting s;
     console := console s |}.

Definition setResult (v : option Result) (s : State) : State :=
  {| formData := formData s; result := v; errors := errors s;
     isLoading := isLoading s; calls := calls s; awaiting := awaiting s;
     console := console s |}.

Definition setErrors (v : gmap string (option jsstring)) (s : State) : State :=
  {| formData := formData s; result := result s; errors := v;
     isLoading := isLoading s; calls := calls s; awaiting := awaiting s;
     console := console s |}.

Definition setIsLoading (v : bool) (s : State) : State :=
  {| formData := formData s; result := result s; errors := errors s;
     isLoading := v; calls := calls s; awaiting := awaiting s;
     console := console s |}.

(** [await client.chat.completions.create(params)] inside a closure over
    [fd]: the call is made and the activation is suspended. *)
Definition create_and_await (params : CreateParams) (fd : FormData) (s : State)
  : State :=
  {| formData := formData s; result := result s; errors := errors s;
     isLoading := isLoading s; calls := calls s ++ [params];
     awaiting := awaiting s ++ [fd]; console := console s |}.

(** The [i]-th suspended activation leaves the list when it is resumed. *)
Definition resumed (i : nat) (s : State) : State :=
  {| formData := formData s; result := result s; errors := errors s;
     isLoading := isLoading s; calls := calls s;
     awaiting := delete i (awaiting s); console := console s |}.

(** [console.error("Error calling GPT API:", error)] *)
Definition console_error (error : Thrown) (s : State) : State :=
  {| formData := formData s; result := result s; errors := errors s;
     isLoading := isLoading s; calls := calls s; awaiting := awaiting s;
     console := console s ++ [error] |}.

(** The first render. *)
Definition init : State :=
  {| formData := defaultFormData; result := None; errors := ∅;
     isLoading := false; calls := []; awaiting := []; console := [] |}.

(** ** Handlers *)

(** A change event of one of the five controls: three text inputs, two
    selects whose options are the members of the unions. *)
Inductive ChangeEvent :=
| change_brand (value : jsstring)
| change_category (value : jsstring)
| change_originalPrice (value : jsstring)
| change_clothingUse (value : ClothingUse)
| change_yearsOld (value : YearsOld).

(** [e.target.name] *)
Definition target_name (e : ChangeEvent) : string :=
  match e with
  | change_brand _ => "brand"
  | change_category _ => "category"
  | change_originalPrice _ => "originalPrice"
  | change_clothingUse _ => "clothingUse"
  | change_yearsOld _ => "yearsOld"
  end.

(** [{...formData, [name]: value}] *)
Definition assign (e : ChangeEvent) (fd : FormData) : FormData :=
  match e with
  | change_brand v =>
      {| brand := v; category := category fd; originalPrice := originalPrice fd;
         clothingUse := clothingUse fd; yearsOld := yearsOld fd |}
  | change_category v =>
      {| brand := brand fd; category := v; originalPrice := originalPrice fd;
         clothingUse := clothingUse fd; yearsOld := yearsOld fd |}
  | change_originalPrice v =>
      {| brand := brand fd; category := category fd; originalPrice := v;
         clothingUse := clothingUse fd; yearsOld := yearsOld fd |}
  | change_clothingUse v =>
      {| brand := brand fd; category := category fd;
         originalPrice := originalPrice fd;
         clothingUse := v; yearsOld := yearsOld fd |}
  | change_yearsOld v =>
      {| brand := brand fd; category := category fd;
         originalPrice := originalPrice fd;
         clothingUse := clothingUse fd; yearsOld := v |}
  end.

(** Truthiness of [errors[name]]: [undefined], [null] and the empty string
    are falsy. *)
Definition truthy (v : option (option jsstring)) : bool :=
  match v with
  | Some (Some msg) => negb (falsy msg)
  | _ => false
  end.

Definition handleChange (e : ChangeEvent) (s : State) : State :=
  let s1 := setFormData (assign e (formData s)) s in
  if truthy (errors s !! target_name e)
  then setErrors (<[target_name e := None]> (errors s)) s1
  else s1.

(** [validateForm()]: the value returned, and the state after
    [setErrors(newErrors)]. *)
Definition validateForm (s : State) : bool * State :=
  let ne := newErrors (formData s) in
  (Nat.eqb (length (Object_keys ne)) 0, setErrors (Some <$> ne) s).

(** [handleSubmit] up to its [await]. *)
Definition handleSubmit (s : State) : State :=
  let '(valid, s1) := validateForm s in
  if negb valid then s1
  else
    let s2 := setIsLoading true s1 in
    create_and_await (createParams (formData s)) (formData s) s2.

(** [response.choices[0].message.content || ''] *)
Definition rawContent (c : Choice) : jsstring :=
  match message_content c with
  | Some text => or_else text []
  | None => []
  end.

(** [rawContent.replace(/[^0-9.]/g, '')] *)
Definition numericPrice (c : Choice) : jsstring :=
  replaceClassAll notNumeric [] (rawContent c).

(** [handleSubmit] from its [await] on, in the activation that closed over
    [fd]: the rest of the [try] block or the [catch] clause, then
    [finally]. *)
Definition handleSubmit_resume (fd : FormData) (o : Settled) (s : State)
  : State :=
  let s1 :=
    match o with
    | Fulfilled response =>
        match choices response with
        | c :: _ =>
            setResult
              (Some {| estimatedPrice := or_else (numericPrice c) (js "0");
                       data := fd |}) s
        | [] => console_error TypeError s
        end
    | Rejected error => console_error error s
    end in
  setIsLoading false s1.

(** The promise of the [i]-th suspended activation settles. *)
Definition settle (i : nat) (o : Settled) (s : State) : State :=
  match awaiting s !! i with
  | Some fd => handleSubmit_resume fd o (resumed i s)
  | None => s
  end.

Definition handleReset (s : State) : State :=
  setErrors ∅ (setResult None (setFormData defaultFormData s)).

(** ** Runs *)

Inductive Event :=
| Change (e : ChangeEvent)
| Validate
| Submit
| Reset
| Settle (i : nat) (o : Settled).

Definition handle (ev : Event) (s : State) : State :=
  match ev with
  | Change e => handleChange e s
  | Validate => (validateForm s).2
  | Submit => handleSubmit s
  | Reset => handleReset s
  | Settle i o => settle i o s
  end.

Definition run (evs : list Event) (s : State) : State :=
  foldl (λ s ev, handle ev s) s evs.

(** What the rendered page lets happen.  [result ? ... : <form>]: the
    controls and the submit button exist while [result] is [null], the
    "Price Another Item" button while it is not; the only submit button is
    [disabled={isLoading}], which also stops submission from the keyboard.
    [validateForm] has no trigger of its own. *)
Definition offered (ev : Event) (s : State) : bool :=
  match ev with
  | Change _ => bool_decide (result s = None)
  | Validate => false
  | Submit => bool_decide (result s = None) && negb (isLoading s)
  | Reset => bool_decide (result s ≠ None)
  | Settle i _ => bool_decide (i < length (awaiting s))%nat
  end.

Inductive on_page : State → Prop :=
| on_page_init : on_page init
| on_page_step ev s : on_page s → offered ev s = true → on_page (handle ev s).

(** ** The interface text of the request

    [interpolate] fills the holes [{name}] of a template from an
    environment; [promptTemplate] is the sentence as the interface
    description gives it. *)

Fixpoint interpolate (template : string) (hole : option string)
    (env : string → jsstring) : jsstring :=
  match template with
  | EmptyString => []
  | String a rest =>
      match hole with
      | None =>
          if Ascii.eqb a "{" then interpolate rest (Some EmptyString) env
          else N_of_ascii a :: interpolate rest None env
      | Some name =>
          if Ascii.eqb a "}" then env name ++ interpolate rest None env
          else interpolate rest (Some (name +:+ String a EmptyString)) env
      end
  end.

Definition promptTemplate : string :=
  "Estimate the resale value of a {category} from {brand} that is {wearLevel} and {ageBracket} old. The original price was ${originalPrice}. Output only the number amount you think it would cost.".

Definition submitted (fd : FormData) (name : string) : jsstring :=
  if String.eqb name "category" then category fd
  else if String.eqb name "brand" then brand fd
  else if String.eqb name "wearLevel" then clothingUse_string (clothingUse fd)
  else if String.eqb name "ageBracket" then yearsOld_string (yearsOld fd)
  else if String.eqb name "originalPrice" then originalPrice fd
  else [].

(** The reply with everything but digits and decimal points removed. *)
Definition digits_and_points (reply : jsstring) : jsstring :=
  filter (λ c, isDigit c = true ∨ isDot c = true) reply.

(** The validation rules in words: brand and category are not empty once
    trimmed, the price is not empty and has the price pattern. *)
Definition acceptable (fd : FormData) : Prop :=
  trim (brand fd) ≠ [] ∧ trim (category fd) ≠ [] ∧
  originalPrice fd ≠ [] ∧ price_pattern (originalPrice fd).

(** What the [catch] clause receives when a settled promise makes the [try]
    block fail, if it does. *)
Definition thrown (o : Settled) : option Thrown :=
  match o with
  | Rejected error => Some error
  | Fulfilled response =>
      match choices response with
      | [] => Some TypeError
      | _ :: _ => None
      end
  end.

(** The form of the scenarios: Nike, Hoodie, 80. *)
Definition nikeHoodie : list Event :=
  [ Change (change_brand (js "Nike"));
    Change (change_category (js "Hoodie"));
    Change (change_originalPrice (js "80")) ].

(** On the page a request is in flight exactly while the loading flag is
    set, there is one at most, and no result is shown meanwhile. *)
Definition idle_or_loading (s : State) : Prop :=
  (awaiting s = [] ∧ isLoading s = false)
  ∨ (∃ fd, awaiting s = [fd] ∧ isLoading s = true ∧ result s = None).

(** Every form that waits at an [await], and the form of a stored result,
    passed validation. *)
Definition snapshots_valid (s : State) : Prop :=
  (∀ r, result s = Some r → newErrors (data r) = ∅)
  ∧ Forall (λ fd, newErrors fd = ∅) (awaiting s).

(** ** The page

    What [return (...)] renders, reduced to the parts that depend on the
    state.  A text input shows its value, a red border when the entry of its
    field in [errors] is truthy, and in that case the entry as a message
    below it. *)

Record TextInput := {
  input_value : jsstring;
  input_invalid : bool;
  input_message : option jsstring;
}.

Inductive Page :=
| ResultPage (heading : jsstring)
    (brandText categoryText originalPriceText conditionText ageText : jsstring)
| FormPage (brandInput categoryInput originalPriceInput : TextInput)
    (clothingUseSelect : ClothingUse) (yearsOldSelect : YearsOld)
    (submitDisabled : bool) (submitLabel : jsstring).

(** [{errors[k] && <p>{errors[k]}</p>}]: a falsy entry renders nothing. *)
Definition shown (v : option (option jsstring)) : option jsstring :=
  match v with
  | Some (Some msg) => if falsy msg then None else Some msg
  | _ => None
  end.

Definition textInput (v : jsstring) (k : string) (s : State) : TextInput :=
  {| input_value := v;
     input_invalid := truthy (errors s !! k);
     input_message := shown (errors s !! k) |}.

Definition render (s : State) : Page :=
  match result s with
  | Some r =>
      ResultPage (js "Estimated Resell Price: $" ++ estimatedPrice r)
        (brand (data r)) (category (data r))
        (js "$" ++ originalPrice (data r))
        (clothingUse_string (clothingUse (data r)))
        (yearsOld_string (yearsOld (data r)))
  | None =>
      FormPage (textInput (brand (formData s)) "brand" s)
        (textInput (category (formData s)) "category" s)
        (textInput (originalPrice (formData s)) "originalPrice" s)
        (clothingUse (formData s)) (yearsOld (formData s))
        (isLoading s)
        (if isLoading s then js "Calculating..." else js "Generate your price")
  end.

(** A unit that [/[^0-9.]/g] keeps. *)
Definition numeric (c : N) : Prop := isDigit c = true ∨ isDot c = true.

(** The entries [errors] can hold: under each of the three validated fields
    [null] or one of its messages. *)
Definition known_entry (k : string) (v : option jsstring) : Prop :=
  (k = "brand" ∧ (v = None ∨ v = Some (js "Brand name is required")))
  ∨ (k = "category" ∧ (v = None ∨ v = Some (js "Category is required")))
  ∨ (k = "originalPrice" ∧
     (v = None ∨ v = Some (js "Original price is required")
      ∨ v = Some (js "Please enter a valid number"))).

Definition errors_known (s : State) : Prop :=
  ∀ k v, errors s !! k = Some v → known_entry k v.

(** A stored price is not empty and holds digits and points only. *)
Definition price_numeric (s : State) : Prop :=
  ∀ r, result s = Some r →
       estimatedPrice r ≠ [] ∧ Forall numeric (estimatedPrice r).

(** Every call made was for a form that passed validation; every error on
    the console and every waiting activation has its call. *)
Definition calls_accounted (s : State) : Prop :=
  Forall (λ p, ∃ fd, p = createParams fd ∧ newErrors fd = ∅) (calls s)
  ∧ (length (console s) + length (awaiting s) ≤ length (calls s))%nat.

(** * Properties *)

(** ** The definitions at work *)

Example test_price_80 : test priceRegExp (js "80") = true.
Proof. reflexivity. Qed.

Example test_price_two_decimals : test priceRegExp (js "19.99") = true.
Proof. reflexivity. Qed.

Example test_price_three_decimals : test priceRegExp (js "19.999") = false.
Proof. reflexivity. Qed.

Example test_price_no_whole : test priceRegExp (js ".5") = false.
Proof. reflexivity. Qed.

Example test_price_no_fraction : test priceRegExp (js "80.") = false.
Proof. reflexivity. Qed.

Example test_price_leading_space : test priceRegExp (js " 80") = false.
Proof. reflexivity. Qed.

Example trim_inner_space : trim (js "  Ralph Lauren ") = js "Ralph Lauren".
Proof. reflexivity. Qed.

Example trim_no_break_space : trim [0xA0; 0x2003; 0x0A] = [].
Proof. reflexivity. Qed.

Example newErrors_defaults :
  map_to_list (newErrors defaultFormData) =
  [ ("originalPrice", js "Original price is required");
    ("category", js "Category is required");
    ("brand", js "Brand name is required") ].
Proof. by vm_compute. Qed.

Example handleChange_clears_error :
  errors (handleChange (change_brand (js "N")) (handleSubmit init)) !! "brand"
  = Some None.
Proof. by vm_compute. Qed.

Example scenario_nike_32 :
  result
    (run (nikeHoodie ++
          [ Change (change_clothingUse LightWear);
            Change (change_yearsOld Years1To2);
            Submit;
            Settle 0 (Fulfilled
              {| choices := [ {| message_content := Some (js "32") |} ] |}) ])
       init) =
  Some {| estimatedPrice := js "32";
          data := {| brand := js "Nike"; category := js "Hoodie";
                     originalPrice := js "80";
                     clothingUse := LightWear; yearsOld := Years1To2 |} |}.
Proof. reflexivity. Qed.

(** ** Regular expressions: [test] decides the language *)

Section regexp.
Implicit Types (r : RegExp) (s : jsstring) (c : N).

Lemma matches_none_inv s : ¬ matches RNone s.
Proof. inversion 1. Qed.

Lemma matches_eps_inv s : matches REps s → s = [].
Proof. by inversion 1. Qed.

Lemma matches_class_inv cls s :
  matches (RClass cls) s → ∃ c, s = [c] ∧ cls c = true.
Proof. inversion 1; subst; eauto. Qed.

Lemma matches_seq_inv r1 r2 s :
  matches (RSeq r1 r2) s →
  ∃ s1 s2, s = s1 ++ s2 ∧ matches r1 s1 ∧ matches r2 s2.
Proof. inversion 1; subst; eauto. Qed.

Lemma matches_alt_inv r1 r2 s :
  matches (RAlt r1 r2) s → matches r1 s ∨ matches r2 s.
Proof. inversion 1; subst; eauto. Qed.

Lemma nullable_matches r : nullable r = true ↔ matches r [].
Proof.
  induction r as [| |cls|r1 IH1 r2 IH2|r1 IH1 r2 IH2|r1 IH1]; simpl.
  - split; [done | intros H; by apply matches_none_inv in H].
  - split; [constructor | done].
  - split; [done | intros (c & ? & _)%matches_class_inv; done].
  - rewrite andb_true_iff, IH1, IH2. split.
    + intros [H1 H2]. apply (matches_seq _ _ [] [] H1 H2).
    + intros (s1 & s2 & Hs & H1 & H2)%matches_seq_inv.
      symmetry in Hs. apply app_eq_nil in Hs as [-> ->]. done.
  - rewrite orb_true_iff, IH1, IH2. split.
    + intros [H|H]; [by apply matches_alt_l | by apply matches_alt_r].
    + apply matches_alt_inv.
  - split; [constructor | done].
Qed.

Lemma matches_star_cons r c s :
  matches (RStar r) (c :: s) →
  ∃ s1 s2, s = s1 ++ s2 ∧ matches r (c :: s1) ∧ matches (RStar r) s2.
Proof.
  intros H. remember (RStar r) as r' eqn:Hr. remember (c :: s) as l eqn:Hl.
  revert s Hl. induction H as [| | | | | |r0 s1 s2 H1 _ H2 IH2];
    intros s' Hl; try discriminate.
  injection Hr as ->. destruct s1 as [|c1 s1]; simpl in Hl.
  - by apply IH2.
  - injection Hl as -> <-. by exists s1, s2.
Qed.

Lemma matches_seq_cons r1 r2 c s :
  matches (RSeq r1 r2) (c :: s) ↔
  (∃ s1 s2, s = s1 ++ s2 ∧ matches r1 (c :: s1) ∧ matches r2 s2)
  ∨ (matches r1 [] ∧ matches r2 (c :: s)).
Proof.
  split.
  - intros (s1 & s2 & Hs & H1 & H2)%matches_seq_inv.
    destruct s1 as [|c1 s1]; simpl in Hs.
    + right. by subst s2.
    + injection Hs as <- ->. left. by exists s1, s2.
  - intros [(s1 & s2 & -> & H1 & H2)|[H1 H2]].
    + apply (matches_seq _ _ (c :: s1) s2 H1 H2).
    + apply (matches_seq _ _ [] (c :: s) H1 H2).
Qed.

Lemma deriv_matches r c s : matches (deriv c r) s ↔ matches r (c :: s).
Proof.
  revert s.
  induction r as [| |cls|r1 IH1 r2 IH2|r1 IH1 r2 IH2|r1 IH1]; intros s; simpl.
  - split; intros H; by apply matches_none_inv in H.
  - split; intros H; [by apply matches_none_inv in H |].
    by apply matches_eps_inv in H.
  - destruct (cls c) eqn:Hc; split.
    + intros ->%matches_eps_inv. by constructor.
    + intros (c' & [= <- ->] & _)%matches_class_inv. constructor.
    + intros H. by apply matches_none_inv in H.
    + intros (c' & [= <- ->] & ?)%matches_class_inv. congruence.
  - rewrite matches_seq_cons.
    destruct (nullable r1) eqn:Hn; split.
    + intros [(s1 & s2 & -> & H1 & H2)%matches_seq_inv|H2]%matches_alt_inv.
      * left. exists s1, s2. by rewrite <- IH1.
      * right. by rewrite <- nullable_matches, <- IH2.
    + intros [(s1 & s2 & -> & H1 & H2)|[_ H2]].
      * apply matches_alt_l. constructor; [by apply IH1 | done].
      * apply matches_alt_r. by apply IH2.
    + intros (s1 & s2 & -> & H1 & H2)%matches_seq_inv.
      left. exists s1, s2. by rewrite <- IH1.
    + intros [(s1 & s2 & -> & H1 & H2)|[H1 _]].
      * constructor; [by apply IH1 | done].
      * apply nullable_matches in H1. congruence.
  - split.
    + intros [H|H]%matches_alt_inv;
        [apply matches_alt_l; by apply IH1 | apply matches_alt_r; by apply IH2].
    + intros [H|H]%matches_alt_inv;
        [apply matches_alt_l; by apply IH1 | apply matches_alt_r; by apply IH2].
  - split.
    + intros (s1 & s2 & -> & H1 & H2)%matches_seq_inv. apply IH1 in H1.
      apply (matches_star_app _ (c :: s1) s2 H1 H2).
    + intros (s1 & s2 & -> & H1 & H2)%matches_star_cons.
      constructor; [by apply IH1 | done].
Qed.

Lemma test_matches r s : test r s = true ↔ matches r s.
Proof.
  revert r. induction s as [|c s IH]; intros r; simpl.
  - apply nullable_matches.
  - rewrite IH. apply deriv_matches.
Qed.

Lemma matches_star_class cls s :
  matches (RStar (RClass cls)) s ↔ Forall (λ c, cls c = true) s.
Proof.
  split.
  - induction s as [|c s IH]; [constructor |].
    intros (s1 & s2 & -> & H1 & H2)%matches_star_cons.
    apply matches_class_inv in H1 as (c' & [= <- ->] & Hc).
    constructor; [done | by apply IH].
  - induction 1 as [|c s Hc _ IH]; [constructor |].
    apply (matches_star_app _ [c] s); [by constructor | done].
Qed.

Lemma matches_plus_class cls s :
  matches (RPlus (RClass cls)) s ↔ s ≠ [] ∧ Forall (λ c, cls c = true) s.
Proof.
  unfold RPlus. split.
  - intros (s1 & s2 & -> & H1 & H2)%matches_seq_inv.
    apply matches_class_inv in H1 as (c & -> & Hc).
    apply matches_star_class in H2. split; [done | by constructor].
  - intros [Hne Hall]. destruct Hall as [|c s Hc Hs]; [done |].
    apply (matches_seq _ _ [c] s); [by constructor | by apply matches_star_class].
Qed.

Lemma matches_one_or_two_class cls s :
  matches (ROneOrTwo (RClass cls)) s ↔
  (length s = 1%nat ∨ length s = 2%nat) ∧ Forall (λ c, cls c = true) s.
Proof.
  unfold ROneOrTwo, ROpt. split.
  - intros (s1 & s2 & -> & H1 & H2)%matches_seq_inv.
    apply matches_class_inv in H1 as (c1 & -> & Hc1).
    apply matches_alt_inv in H2 as [H2|H2].
    + apply matches_class_inv in H2 as (c2 & -> & Hc2).
      split; [by right | by repeat constructor].
    + apply matches_eps_inv in H2 as ->.
      split; [by left | by repeat constructor].
  - intros [Hlen Hall].
    destruct s as [|c1 [|c2 [|c3 s]]]; simpl in Hlen; try (destruct Hlen; lia).
    + rewrite Forall_cons_iff in Hall. destruct Hall as [Hc1 _].
      apply (matches_seq _ _ [c1] []); [by constructor |].
      apply matches_alt_r. constructor.
    + rewrite !Forall_cons_iff in Hall. destruct Hall as (Hc1 & Hc2 & _).
      apply (matches_seq _ _ [c1] [c2]); [by constructor |].
      apply matches_alt_l. by constructor.
Qed.

Lemma isDot_spec c : isDot c = true ↔ c = 0x2E.
Proof. unfold isDot. apply N.eqb_eq. Qed.

Lemma matches_price s : matches priceRegExp s ↔ price_pattern s.
Proof.
  unfold priceRegExp, price_pattern. split.
  - intros (whole & frac & -> & H1 & H2)%matches_seq_inv.
    apply matches_plus_class in H1 as [Hne Hall].
    exists whole, frac. split_and!; try done.
    apply matches_alt_inv in H2 as [H2|H2].
    + right. apply matches_seq_inv in H2 as (s1 & ds & -> & Hd & Hds).
      apply matches_class_inv in Hd as (c & -> & ->%isDot_spec).
      apply matches_one_or_two_class in Hds as [? ?]. by exists ds.
    + left. by apply matches_eps_inv.
  - intros (whole & frac & -> & Hne & Hall & Hfrac).
    constructor; [by apply matches_plus_class |].
    destruct Hfrac as [->|(ds & -> & Hlen & Hds)].
    + apply matches_alt_r. constructor.
    + apply matches_alt_l.
      apply (matches_seq _ _ [0x2E] ds); [by constructor |].
      by apply matches_one_or_two_class.
Qed.

Lemma test_price s : test priceRegExp s = true ↔ price_pattern s.
Proof. rewrite test_matches. apply matches_price. Qed.

End regexp.

(** ** Strings: [trim] and truthiness *)

Section strings.
Implicit Types (s : jsstring) (c : N).

Lemma falsy_nil s : falsy s = true ↔ s = [].
Proof. by destruct s. Qed.

Lemma falsy_cons s : falsy s = false ↔ s ≠ [].
Proof. by destruct s. Qed.

Lemma trimStart_nil s : trimStart s = [] ↔ Forall (λ c, blank c) s.
Proof.
  induction s as [|c s IH]; simpl; [by split |].
  destruct (isWhiteSpaceOrLineTerminator c) eqn:Hc.
  - rewrite IH, Forall_cons_iff. tauto.
  - rewrite Forall_cons_iff. split; [done | intros [? _]; congruence].
Qed.

(** What [trimStart] leaves starts with a unit that is not blank. *)
Lemma trimStart_blank s : Forall (λ c, blank c) (trimStart s) → trimStart s = [].
Proof.
  induction s as [|c s IH]; simpl; [done |].
  destruct (isWhiteSpaceOrLineTerminator c) eqn:Hc; [done |].
  rewrite Forall_cons_iff. intros [? _]; congruence.
Qed.

Lemma trimEnd_nil s : trimEnd s = [] ↔ Forall (λ c, blank c) s.
Proof.
  unfold trimEnd. rewrite <- (Forall_reverse _ s), <- trimStart_nil.
  split; [| by intros ->].
  intros H. apply (f_equal reverse) in H. by rewrite reverse_involutive in H.
Qed.

(** The trimmed string is empty exactly when every unit is blank. *)
Lemma trim_nil s : trim s = [] ↔ Forall (λ c, blank c) s.
Proof.
  unfold trim. rewrite trimEnd_nil. split.
  - intros H%trimStart_blank. by apply trimStart_nil.
  - intros H%trimStart_nil. rewrite H. constructor.
Qed.

Lemma isDigit_bounds c : isDigit c = true ↔ 0x30 ≤ c ∧ c ≤ 0x39.
Proof. unfold isDigit. rewrite andb_true_iff, !N.leb_le. done. Qed.

Lemma isDigit_not_blank c : isDigit c = true → isWhiteSpaceOrLineTerminator c = false.
Proof.
  intros [Hlo Hhi]%isDigit_bounds. unfold isWhiteSpaceOrLineTerminator.
  repeat match goal with
         | |- context [c =? ?k] =>
             replace (c =? k) with false by (symmetry; apply N.eqb_neq; lia)
         end.
  replace (0x2000 <=? c) with false by (symmetry; apply N.leb_gt; lia).
  reflexivity.
Qed.

(** A string of the price pattern starts with a digit: it is not empty,
    and trimming leaves something. *)
Lemma price_pattern_head s :
  price_pattern s → ∃ c s', s = c :: s' ∧ isDigit c = true.
Proof.
  intros (whole & frac & -> & Hne & Hall & _).
  destruct Hall as [|c w Hc _]; [done |]. by exists c, (w ++ frac).
Qed.

Lemma price_pattern_trim s : price_pattern s → s ≠ [] ∧ trim s ≠ [].
Proof.
  intros (c & s' & -> & Hc)%price_pattern_head. split; [done |].
  rewrite trim_nil, Forall_cons_iff. intros [Hb _].
  apply isDigit_not_blank in Hc. congruence.
Qed.

End strings.

(** ** Validation *)

Section validation.
Implicit Types (fd : FormData) (s : State).

(** The entry of each field in [newErrors]. *)
Lemma newErrors_brand fd :
  newErrors fd !! "brand" =
  if falsy (trim (brand fd)) then Some (js "Brand name is required") else None.
Proof.
  unfold newErrors.
  destruct (falsy (trim (brand fd))), (falsy (trim (category fd))),
    (falsy (trim (originalPrice fd))), (test priceRegExp (originalPrice fd));
    reflexivity.
Qed.

Lemma newErrors_category fd :
  newErrors fd !! "category" =
  if falsy (trim (category fd)) then Some (js "Category is required") else None.
Proof.
  unfold newErrors.
  destruct (falsy (trim (brand fd))), (falsy (trim (category fd))),
    (falsy (trim (originalPrice fd))), (test priceRegExp (originalPrice fd));
    reflexivity.
Qed.

Lemma newErrors_originalPrice fd :
  newErrors fd !! "originalPrice" =
  if falsy (trim (originalPrice fd)) then Some (js "Original price is required")
  else if test priceRegExp (originalPrice fd) then None
       else Some (js "Please enter a valid number").
Proof.
  unfold newErrors.
  destruct (falsy (trim (brand fd))), (falsy (trim (category fd))),
    (falsy (trim (originalPrice fd))), (test priceRegExp (originalPrice fd));
    reflexivity.
Qed.

(** [newErrors] has no other keys, so it is empty when the three tests
    pass. *)
Lemma newErrors_empty fd :
  newErrors fd = ∅ ↔
  falsy (trim (brand fd)) = false ∧ falsy (trim (category fd)) = false ∧
  falsy (trim (originalPrice fd)) = false ∧
  test priceRegExp (originalPrice fd) = true.
Proof.
  split.
  - intros H.
    pose proof (newErrors_brand fd) as Hb.
    pose proof (newErrors_category fd) as Hc.
    pose proof (newErrors_originalPrice fd) as Hp.
    rewrite H, lookup_empty in Hb, Hc, Hp.
    destruct (falsy (trim (brand fd))), (falsy (trim (category fd))),
      (falsy (trim (originalPrice fd))), (test priceRegExp (originalPrice fd));
      done.
  - intros (Hb & Hc & Hp & Ht). unfold newErrors. by rewrite Hb, Hc, Hp, Ht.
Qed.

Lemma newErrors_empty_acceptable fd : newErrors fd = ∅ ↔ acceptable fd.
Proof.
  rewrite newErrors_empty, !falsy_cons, test_price. unfold acceptable.
  split.
  - intros (? & ? & ? & Hp). split_and!; try done.
    by apply price_pattern_trim.
  - intros (? & ? & ? & Hp). split_and!; try done.
    by apply price_pattern_trim.
Qed.

Lemma Object_keys_empty {A} (o : gmap string A) :
  Nat.eqb (length (Object_keys o)) 0 = true ↔ o = ∅.
Proof.
  unfold Object_keys. rewrite Nat.eqb_eq, length_fmap, length_zero_iff_nil.
  apply map_to_list_empty_iff.
Qed.

Lemma validateForm_true s :
  (validateForm s).1 = true ↔ newErrors (formData s) = ∅.
Proof. apply Object_keys_empty. Qed.

Lemma validateForm_false s :
  (validateForm s).1 = false ↔ newErrors (formData s) ≠ ∅.
Proof. rewrite <- validateForm_true. by destruct (validateForm s).1. Qed.

End validation.

(** ** [validateForm] and the abort of [handleSubmit] *)

Section validate_claims.
Implicit Types (fd : FormData) (s : State).

Lemma init_not_acceptable : newErrors (formData init) ≠ ∅.
Proof. rewrite newErrors_empty_acceptable. by intros (H & _). Qed.

Lemma handleSubmit_abort s :
  newErrors (formData s) ≠ ∅ →
  handleSubmit s = setErrors (Some <$> newErrors (formData s)) s.
Proof.
  intros H%validateForm_false. unfold handleSubmit.
  destruct (validateForm s) as [valid s1] eqn:Hv. simpl in H. subst valid.
  simpl. unfold validateForm in Hv. by injection Hv as _ <-.
Qed.

End validate_claims.

(** C1.  [validateForm] stores the map [newErrors] and returns whether it has
    no key; the map is empty exactly when brand and category are not empty
    once trimmed and the price is not empty and has the pattern
    [^\d+(\.\d{1,2})?$]; a field whose rule fails has an entry. *)
Theorem validateForm_rules (s : State) :
  let fd := formData s in
  errors (validateForm s).2 = Some <$> newErrors fd
  ∧ ((validateForm s).1 = true ↔ newErrors fd = ∅)
  ∧ (newErrors fd = ∅ ↔
       trim (brand fd) ≠ [] ∧ trim (category fd) ≠ [] ∧
       originalPrice fd ≠ [] ∧ price_pattern (originalPrice fd))
  ∧ (trim (brand fd) = [] → is_Some (newErrors fd !! "brand"))
  ∧ (trim (category fd) = [] → is_Some (newErrors fd !! "category"))
  ∧ (originalPrice fd = [] ∨ ¬ price_pattern (originalPrice fd) →
       is_Some (newErrors fd !! "originalPrice")).
Proof.
  intros fd. split_and!.
  - done.
  - apply validateForm_true.
  - apply newErrors_empty_acceptable.
  - intros H. rewrite newErrors_brand, H. by eexists.
  - intros H. rewrite newErrors_category, H. by eexists.
  - intros H. rewrite newErrors_originalPrice.
    destruct (falsy (trim (originalPrice fd))) eqn:Hf; [by eexists |].
    destruct (test priceRegExp (originalPrice fd)) eqn:Ht; [| by eexists].
    apply test_price in Ht. destruct H as [H|H]; [| done].
    rewrite H in Hf. done.
Qed.

(** C2.  When [newErrors] is not empty, [handleSubmit] only stores it as the
    error state: no call to the client, no suspended activation, the loading
    flag and the result as they were. *)
Theorem handleSubmit_invalid (s : State) :
  newErrors (formData s) ≠ ∅ →
  errors (handleSubmit s) = Some <$> newErrors (formData s)
  ∧ errors (handleSubmit s) ≠ ∅
  ∧ calls (handleSubmit s) = calls s
  ∧ awaiting (handleSubmit s) = awaiting s
  ∧ isLoading (handleSubmit s) = isLoading s
  ∧ result (handleSubmit s) = result s
  ∧ formData (handleSubmit s) = formData s
  ∧ console (handleSubmit s) = console s.
Proof.
  intros H. rewrite (handleSubmit_abort s H). split_and!; try done.
  simpl. intros He. by apply fmap_empty_inv in He.
Qed.

Lemma handleSubmit_invalid_witness :
  newErrors (formData init) ≠ ∅
  ∧ calls (handleSubmit init) = calls init
  ∧ isLoading (handleSubmit init) = isLoading init.
Proof.
  split; [exact init_not_acceptable |].
  pose proof (handleSubmit_invalid init init_not_acceptable) as H.
  split; apply H.
Defined.

(** C6, the claim as the specification has it, fails: [validateForm] calls
    [setErrors], so the error state of the first render, which is empty, is
    not what it leaves. *)
Lemma validateForm_pure_counterexample :
  errors init = ∅ ∧ errors (validateForm init).2 ≠ errors init.
Proof.
  split; [done |]. simpl. intros He.
  apply fmap_empty_inv in He. by apply init_not_acceptable.
Qed.

(** C6, amended.  What [validateForm] returns and stores depends on
    [formData] only; it replaces the error state by [newErrors] and leaves
    the form, the result, the loading flag, the calls, the suspended
    activations and the console as they were. *)
Theorem validateForm_effect (s s' : State) :
  formData s = formData s' →
  (validateForm s).1 = (validateForm s').1
  ∧ errors (validateForm s).2 = errors (validateForm s').2
  ∧ errors (validateForm s).2 = Some <$> newErrors (formData s)
  ∧ formData (validateForm s).2 = formData s
  ∧ result (validateForm s).2 = result s
  ∧ isLoading (validateForm s).2 = isLoading s
  ∧ calls (validateForm s).2 = calls s
  ∧ awaiting (validateForm s).2 = awaiting s
  ∧ console (validateForm s).2 = console s.
Proof.
  intros H. unfold validateForm. simpl. rewrite H. done.
Qed.

Lemma validateForm_effect_witness :
  formData init = formData (setIsLoading true init)
  ∧ (validateForm init).1 = (validateForm (setIsLoading true init)).1
  ∧ isLoading (validateForm init).2 = isLoading init.
Proof.
  split; [reflexivity |].
  pose proof (validateForm_effect init (setIsLoading true init) eq_refl) as H.
  split; apply H.
Defined.

(** ** The reply *)

Section reply.
Implicit Types (fd : FormData) (s : State) (reply : jsstring).

(** Replacing every unit outside [0-9.] by the empty string keeps the
    digits and the points, in order. *)
Lemma replace_notNumeric reply :
  replaceClassAll notNumeric [] reply = digits_and_points reply.
Proof.
  unfold replaceClassAll, digits_and_points.
  induction reply as [|c reply IH]; [done |].
  rewrite bind_cons, filter_cons, IH. unfold notNumeric.
  case_decide as H.
  - replace (isDigit c || isDot c) with true; [done |].
    symmetry. apply orb_true_iff. exact H.
  - replace (isDigit c || isDot c) with false; [done |].
    symmetry. apply orb_false_iff.
    split; apply not_true_is_false; tauto.
Qed.

Lemma or_else_nil_r reply : or_else reply [] = reply.
Proof. by destruct reply. Qed.

Lemma numericPrice_reply reply :
  numericPrice {| message_content := Some reply |} = digits_and_points reply.
Proof.
  unfold numericPrice, rawContent. simpl.
  by rewrite or_else_nil_r, replace_notNumeric.
Qed.

Lemma or_else_decide (a b : jsstring) :
  or_else a b = if decide (a = []) then b else a.
Proof. by destruct a. Qed.

(** Units that are neither digits nor points all go. *)
Lemma digits_and_points_none reply :
  Forall (λ c, isDigit c = false ∧ isDot c = false) reply →
  digits_and_points reply = [].
Proof.
  unfold digits_and_points. induction 1 as [|c reply [Hd Hp] _ IH]; [done |].
  rewrite filter_cons, IH. case_decide as H; [| done].
  destruct H; congruence.
Qed.

Lemma resume_fulfilled_result fd (c : Choice) (rest : list Choice) s :
  handleSubmit_resume fd (Fulfilled {| choices := c :: rest |}) s =
  setIsLoading false
    (setResult (Some {| estimatedPrice := or_else (numericPrice c) (js "0");
                        data := fd |}) s).
Proof. done. Qed.

End reply.

(** C3.  After a reply with text, the stored [estimatedPrice] is the text
    without the units that are neither digits nor decimal points, or ["0"]
    if nothing is left; ["$45.00 approximately"] gives ["45.00"]. *)
Theorem estimatedPrice_of_reply (fd : FormData) (reply : jsstring)
    (rest : list Choice) (s : State) :
  let fulfilled text :=
    Fulfilled {| choices := {| message_content := Some text |} :: rest |} in
  result (handleSubmit_resume fd (fulfilled reply) s) =
    Some {| estimatedPrice :=
              if decide (digits_and_points reply = []) then js "0"
              else digits_and_points reply;
            data := fd |}
  ∧ result (handleSubmit_resume fd (fulfilled (js "$45.00 approximately")) s) =
      Some {| estimatedPrice := js "45.00"; data := fd |}.
Proof.
  intros fulfilled. unfold fulfilled. rewrite !resume_fulfilled_result. simpl.
  split; [| done].
  by rewrite numericPrice_reply, or_else_decide.
Qed.

(** C4, the claim as the specification has it, fails: the reply
    ["I cannot estimate."] has no digit, and its final point stays. *)
Lemma no_digit_reply_counterexample :
  let reply := js "I cannot estimate." in
  Forall (λ c, isDigit c = false) reply
  ∧ estimatedPrice <$>
      result (handleSubmit_resume defaultFormData
                (Fulfilled {| choices := [ {| message_content := Some reply |} ] |})
                init) = Some (js ".")
  ∧ js "." ≠ js "0".
Proof.
  split_and!; [| done | done].
  apply Forall_forall. intros c Hc. vm_compute in Hc.
  repeat (destruct Hc as [<-|Hc]; [done |]). done.
Qed.

(** C4, amended.  After a reply with neither digits nor decimal points the
    stored [estimatedPrice] is ["0"]; so it is after the reply
    ["I cannot estimate"]. *)
Theorem estimatedPrice_no_numeric (fd : FormData) (reply : jsstring)
    (rest : list Choice) (s : State) :
  Forall (λ c, isDigit c = false ∧ isDot c = false) reply →
  result (handleSubmit_resume fd
            (Fulfilled {| choices := {| message_content := Some reply |} :: rest |})
            s) =
    Some {| estimatedPrice := js "0"; data := fd |}.
Proof.
  intros H. rewrite resume_fulfilled_result. simpl.
  by rewrite numericPrice_reply, (digits_and_points_none _ H).
Qed.

Lemma estimatedPrice_no_numeric_witness :
  Forall (λ c, isDigit c = false ∧ isDot c = false) (js "I cannot estimate")
  ∧ result (handleSubmit_resume defaultFormData
              (Fulfilled {| choices :=
                 [ {| message_content := Some (js "I cannot estimate") |} ] |})
              init) =
      Some {| estimatedPrice := js "0"; data := defaultFormData |}.
Proof.
  assert (H : Forall (λ c, isDigit c = false ∧ isDot c = false)
                     (js "I cannot estimate")).
  { apply Forall_forall. intros c Hc. vm_compute in Hc.
    repeat (destruct Hc as [<-|Hc]; [done |]). done. }
  split; [exact H |].
  apply (estimatedPrice_no_numeric defaultFormData (js "I cannot estimate") [] init H).
Defined.

(** ** The request *)

Section request.
Implicit Types (fd : FormData) (s : State).

Lemma prompt_interpolate fd :
  prompt fd = interpolate promptTemplate None (submitted fd).
Proof. reflexivity. Qed.

Lemma handleSubmit_valid s :
  newErrors (formData s) = ∅ →
  handleSubmit s =
  create_and_await (createParams (formData s)) (formData s)
    (setIsLoading true (setErrors ∅ s)).
Proof.
  intros H. unfold handleSubmit.
  destruct (validateForm s) as [valid s1] eqn:Hv.
  pose proof (proj2 (validateForm_true s) H) as Ht.
  rewrite Hv in Ht. simpl in Ht. subst valid. simpl.
  unfold validateForm in Hv. injection Hv as _ <-.
  by rewrite H, fmap_empty.
Qed.

(** A valid submit whose promise is fulfilled with a choice stores the
    result, whatever the state it starts from. *)
Lemma submit_fulfilled s (c : Choice) (rest : list Choice) :
  newErrors (formData s) = ∅ →
  settle (length (awaiting s)) (Fulfilled {| choices := c :: rest |})
    (handleSubmit s) =
  setIsLoading false
    (setResult (Some {| estimatedPrice := or_else (numericPrice c) (js "0");
                        data := formData s |})
       (resumed (length (awaiting s)) (handleSubmit s))).
Proof.
  intros H. unfold settle. rewrite (handleSubmit_valid s H). simpl.
  by rewrite list_lookup_middle.
Qed.

End request.

(** C7.  On a form that passes validation [handleSubmit] makes one call to
    the client: two messages, the second from the user with the sentence of
    the interface filled from the five fields, at most 300 tokens,
    temperature 0.7, one completion; the loading flag is set and the
    activation waits with the form it submitted. *)
Theorem handleSubmit_request (s : State) :
  newErrors (formData s) = ∅ →
  ∃ params : CreateParams,
    calls (handleSubmit s) = calls s ++ [params]
    ∧ awaiting (handleSubmit s) = awaiting s ++ [formData s]
    ∧ isLoading (handleSubmit s) = true
    ∧ messages params =
        [ {| role := system; content := js "You are a helpful assistant." |};
          {| role := user;
             content := interpolate promptTemplate None (submitted (formData s)) |} ]
    ∧ model params = js "gpt-4o-mini-2024-07-18"
    ∧ max_tokens params = 300
    ∧ temperature params = (7 # 10)%Q
    ∧ n params = 1.
Proof.
  intros H. exists (createParams (formData s)).
  rewrite (handleSubmit_valid s H).
  split_and!; reflexivity.
Qed.

Lemma handleSubmit_request_witness :
  let s := run nikeHoodie init in
  newErrors (formData s) = ∅
  ∧ ∃ params : CreateParams,
      calls (handleSubmit s) = [params]
      ∧ (content <$> messages params) !! 1%nat =
          Some (js "Estimate the resale value of a Hoodie from Nike that is Not Worn and Less than 1 year old. The original price was $80. Output only the number amount you think it would cost.").
Proof.
  intros s.
  assert (H : newErrors (formData s) = ∅) by (by vm_compute).
  split; [exact H |].
  destruct (handleSubmit_request s H) as (params & Hc & _ & _ & Hm & _).
  exists params. split; [exact Hc |]. rewrite Hm. reflexivity.
Defined.

(** C9.  [handleReset] writes the defaults whatever the state was: the three
    texts empty, ["Not Worn"], ["Less than 1 year"], no error, no result;
    the loading flag and what lies outside the component stay; a second
    reset changes nothing. *)
Theorem handleReset_defaults (s : State) :
  formData (handleReset s) = defaultFormData
  ∧ brand (formData (handleReset s)) = []
  ∧ category (formData (handleReset s)) = []
  ∧ originalPrice (formData (handleReset s)) = []
  ∧ clothingUse_string (clothingUse (formData (handleReset s))) = js "Not Worn"
  ∧ yearsOld_string (yearsOld (formData (handleReset s))) = js "Less than 1 year"
  ∧ errors (handleReset s) = ∅
  ∧ result (handleReset s) = None
  ∧ isLoading (handleReset s) = isLoading s
  ∧ calls (handleReset s) = calls s
  ∧ awaiting (handleReset s) = awaiting s
  ∧ console (handleReset s) = console s
  ∧ handleReset (handleReset s) = handleReset s.
Proof. split_and!; reflexivity. Qed.

(** ** Runs *)

Section runs.
Implicit Types (fd : FormData) (s : State) (ev : Event) (evs : list Event).

Lemma run_snoc evs ev s : run (evs ++ [ev]) s = handle ev (run evs s).
Proof. unfold run. by rewrite foldl_app. Qed.

Lemma handleChange_outside (e : ChangeEvent) s :
  result (handleChange e s) = result s ∧
  isLoading (handleChange e s) = isLoading s ∧
  calls (handleChange e s) = calls s ∧
  awaiting (handleChange e s) = awaiting s ∧
  console (handleChange e s) = console s.
Proof. unfold handleChange. by destruct (truthy _). Qed.

(** [handleSubmit] either aborts or calls the client, once. *)
Lemma handleSubmit_cases s :
  (newErrors (formData s) ≠ ∅ ∧
   handleSubmit s = setErrors (Some <$> newErrors (formData s)) s)
  ∨ (newErrors (formData s) = ∅ ∧
     handleSubmit s =
     create_and_await (createParams (formData s)) (formData s)
       (setIsLoading true (setErrors ∅ s))).
Proof.
  destruct (decide (newErrors (formData s) = ∅)) as [H|H].
  - right. split; [done | by apply handleSubmit_valid].
  - left. split; [done | by apply handleSubmit_abort].
Qed.

Lemma resume_outside fd (o : Settled) s :
  isLoading (handleSubmit_resume fd o s) = false ∧
  formData (handleSubmit_resume fd o s) = formData s ∧
  errors (handleSubmit_resume fd o s) = errors s ∧
  calls (handleSubmit_resume fd o s) = calls s ∧
  awaiting (handleSubmit_resume fd o s) = awaiting s.
Proof. destruct o as [[[|c rest]]|error]; done. Qed.

(** When the [try] block fails, the error is logged and the result is not
    touched. *)
Lemma resume_thrown fd (o : Settled) (error : Thrown) s :
  thrown o = Some error →
  handleSubmit_resume fd o s = setIsLoading false (console_error error s).
Proof.
  destruct o as [[[|c rest]]|error']; simpl; intros [= <-]; done.
Qed.

(** The page is idle or loading. *)
Lemma on_page_idle_or_loading s : on_page s → idle_or_loading s.
Proof.
  induction 1 as [|ev s _ IH Hoff]; [by left |].
  destruct ev as [e| | | |i o]; simpl in *.
  - destruct (handleChange_outside e s) as (Hr & Hl & _ & Ha & _).
    unfold idle_or_loading. rewrite Hr, Hl, Ha. done.
  - done.
  - apply andb_true_iff in Hoff as [Hres%bool_decide_eq_true Hl%negb_true_iff].
    destruct IH as [[Ha _]|(fd & _ & Hl' & _)]; [| congruence].
    destruct (handleSubmit_cases s) as [[_ ->]|[_ ->]].
    + by left.
    + right. exists (formData s). simpl. by rewrite Ha.
  - destruct IH as [IH|(fd & _ & _ & Hres)]; [by left |].
    apply bool_decide_eq_true in Hoff. done.
  - apply bool_decide_eq_true in Hoff.
    destruct IH as [[Ha _]|(fd & Ha & _ & _)];
      [rewrite Ha in Hoff; simpl in Hoff; lia |].
    rewrite Ha in Hoff. simpl in Hoff.
    assert (i = 0%nat) as -> by lia.
    unfold settle. rewrite Ha. simpl. left.
    destruct (resume_outside fd o (resumed 0 s)) as (-> & _ & _ & _ & ->).
    simpl. by rewrite Ha.
Qed.

(** Handlers keep the snapshots valid. *)
Lemma handle_snapshots_valid ev s :
  snapshots_valid s → snapshots_valid (handle ev s).
Proof.
  intros [Hres Haw]. destruct ev as [e| | | |i o]; simpl.
  - destruct (handleChange_outside e s) as (Hr & _ & _ & Ha & _).
    unfold snapshots_valid. by rewrite Hr, Ha.
  - done.
  - destruct (handleSubmit_cases s) as [[_ ->]|[Hv ->]]; [done |].
    split; [done |]. simpl. apply Forall_app. split; [done |].
    by constructor.
  - split; [done | done].
  - unfold settle. destruct (awaiting s !! i) as [fd|] eqn:Hi; [| done].
    assert (Hfd : newErrors fd = ∅).
    { by apply (proj1 (Forall_lookup _ _) Haw i fd). }
    assert (Hdel : Forall (λ fd, newErrors fd = ∅) (delete i (awaiting s))).
    { by apply Forall_delete. }
    destruct o as [[[|c rest]]|error]; split; simpl; try done.
    by intros r [= <-].
Qed.

Lemma run_snapshots_valid evs s :
  snapshots_valid s → snapshots_valid (run evs s).
Proof.
  revert s. induction evs as [|ev evs IH]; intros s H; [done |].
  simpl. apply IH. by apply handle_snapshots_valid.
Qed.

Lemma init_snapshots_valid : snapshots_valid init.
Proof. split; [done | constructor]. Qed.

End runs.

(** C5.  When the promise of a suspended activation makes the [try] block
    fail (the client rejects, or the response has no choice), the error goes
    to the console, the result stays as it was (on the page: unset), the
    loading flag is cleared and nothing else changes; a later valid submit
    calls the client and, fulfilled, stores its result. *)
Theorem transport_failure (s : State) (i : nat) (fd : FormData)
    (o : Settled) (error : Thrown) :
  awaiting s !! i = Some fd →
  thrown o = Some error →
  let s1 := settle i o s in
  console s1 = console s ++ [error]
  ∧ result s1 = result s
  ∧ (on_page s → result s1 = None)
  ∧ isLoading s1 = false
  ∧ formData s1 = formData s
  ∧ errors s1 = errors s
  ∧ calls s1 = calls s
  ∧ awaiting s1 = delete i (awaiting s)
  ∧ (newErrors (formData s1) = ∅ →
     ∀ (c : Choice) (rest : list Choice),
       let s2 := handleSubmit s1 in
       let s3 :=
         settle (length (awaiting s1)) (Fulfilled {| choices := c :: rest |}) s2 in
       calls s2 = calls s1 ++ [createParams (formData s1)]
       ∧ isLoading s2 = true
       ∧ result s3 =
           Some {| estimatedPrice := or_else (numericPrice c) (js "0");
                   data := formData s1 |}
       ∧ isLoading s3 = false).
Proof.
  intros Hi Ho s1.
  assert (Hs1 : s1 = setIsLoading false (console_error error (resumed i s))).
  { unfold s1, settle. rewrite Hi. by apply resume_thrown. }
  split_and!; try (rewrite Hs1; reflexivity).
  - intros Hpage. rewrite Hs1. simpl.
    destruct (on_page_idle_or_loading s Hpage) as [[Ha _]|(? & _ & _ & Hr)];
      [| done].
    by rewrite Ha in Hi.
  - intros Hv c rest s2 s3. unfold s3, s2.
    rewrite (submit_fulfilled s1 c rest Hv), (handleSubmit_valid s1 Hv).
    done.
Qed.

Lemma transport_failure_witness :
  let s := run (nikeHoodie ++ [Submit]) init in
  let o := Rejected (APIError (Some 500)) in
  awaiting s !! 0%nat = Some (formData s)
  ∧ thrown o = Some (APIError (Some 500))
  ∧ console (settle 0 o s) = [APIError (Some 500)]
  ∧ result (settle 0 o s) = None
  ∧ isLoading (settle 0 o s) = false.
Proof.
  intros s o.
  assert (Hi : awaiting s !! 0%nat = Some (formData s)) by reflexivity.
  assert (Ho : thrown o = Some (APIError (Some 500))) by reflexivity.
  destruct (transport_failure s 0 (formData s) o _ Hi Ho)
    as (Hcon & Hres & _ & Hload & _).
  split_and!; [exact Hi | exact Ho | exact Hcon | exact Hres | exact Hload].
Defined.

(** C8, the claim as the specification has it, fails: [handleSubmit] does
    not read the loading flag.  After a valid submit the flag is set and one
    request waits; a second call of the handler makes a second request. *)
Lemma second_submit_counterexample :
  let s := run (nikeHoodie ++ [Submit]) init in
  isLoading s = true
  ∧ length (calls s) = 1%nat ∧ length (awaiting s) = 1%nat
  ∧ length (calls (handleSubmit s)) = 2%nat
  ∧ length (awaiting (handleSubmit s)) = 2%nat.
Proof. by vm_compute. Qed.

(** C8, amended.  On the page the submit trigger is not offered while the
    loading flag is set, and no event that is offered then calls the client;
    so along every run of the page at most one request waits, and one waits
    exactly while the flag is set. *)
Theorem one_request_on_page (s : State) :
  on_page s →
  (length (awaiting s) ≤ 1)%nat
  ∧ (isLoading s = true ↔ awaiting s ≠ [])
  ∧ (isLoading s = true →
     offered Submit s = false
     ∧ ∀ ev, offered ev s = true → calls (handle ev s) = calls s).
Proof.
  intros Hpage.
  destruct (on_page_idle_or_loading s Hpage) as [[Ha Hl]|(fd & Ha & Hl & Hr)];
    rewrite Ha, Hl; (split_and!; [simpl; lia | split; done |]).
  - done.
  - intros _. split; [unfold offered; by rewrite Hl, andb_false_r |].
    intros [e| | | |i o] Hoff; simpl in *.
    + apply handleChange_outside.
    + done.
    + rewrite Hl, andb_false_r in Hoff. done.
    + done.
    + unfold settle. destruct (awaiting s !! i) as [fd'|]; [| done].
      by destruct (resume_outside fd' o (resumed i s)) as (_ & _ & _ & -> & _).
Qed.

Lemma one_request_on_page_witness :
  let s := run (nikeHoodie ++ [Submit]) init in
  on_page s ∧ (length (awaiting s) ≤ 1)%nat ∧ offered Submit s = false.
Proof.
  intros s.
  assert (Hpage : on_page s).
  { change (on_page
      (handle Submit
        (handle (Change (change_originalPrice (js "80")))
          (handle (Change (change_category (js "Hoodie")))
            (handle (Change (change_brand (js "Nike"))) init))))).
    repeat (apply on_page_step; [| reflexivity]). apply on_page_init. }
  pose proof (one_request_on_page s Hpage) as (Hlen & Hiff & Hload).
  split_and!; [exact Hpage | exact Hlen |].
  apply Hload. reflexivity.
Defined.

(** C10.  Along every run of the handlers from the first render, in any
    order and with any settlement of the requests, a stored result carries a
    form that passes validation: brand and category not empty once trimmed,
    a price of the pattern. *)
Theorem result_snapshot_valid (evs : list Event) (r : Result) :
  result (run evs init) = Some r →
  newErrors (data r) = ∅
  ∧ trim (brand (data r)) ≠ []
  ∧ trim (category (data r)) ≠ []
  ∧ originalPrice (data r) ≠ []
  ∧ price_pattern (originalPrice (data r)).
Proof.
  intros Hr.
  destruct (run_snapshots_valid evs init init_snapshots_valid) as [Hres _].
  pose proof (Hres r Hr) as Hv. split; [done |].
  by apply newErrors_empty_acceptable.
Qed.

Lemma result_snapshot_valid_witness :
  let evs :=
    nikeHoodie ++
    [ Submit;
      Settle 0 (Fulfilled {| choices := [ {| message_content := Some (js "32") |} ] |}) ] in
  let r :=
    {| estimatedPrice := js "32";
       data := {| brand := js "Nike"; category := js "Hoodie";
                  originalPrice := js "80";
                  clothingUse := NotWorn; yearsOld := LessThan1Year |} |} in
  result (run evs init) = Some r ∧ newErrors (data r) = ∅.
Proof.
  intros evs r.
  assert (Hr : result (run evs init) = Some r) by reflexivity.
  split; [exact Hr |].
  apply (result_snapshot_valid evs r Hr).
Defined.

(** * Further properties of the component *)

(** ** [handleChange] *)

Section change.
Implicit Types (fd : FormData) (s : State) (e : ChangeEvent) (k : string).

Lemma State_eq s1 s2 :
  formData s1 = formData s2 → result s1 = result s2 → errors s1 = errors s2 →
  isLoading s1 = isLoading s2 → calls s1 = calls s2 →
  awaiting s1 = awaiting s2 → console s1 = console s2 → s1 = s2.
Proof. destruct s1, s2; simpl; by intros -> -> -> -> -> -> ->. Qed.

Lemma handleChange_formData e s :
  formData (handleChange e s) = assign e (formData s).
Proof. unfold handleChange. by destruct (truthy _). Qed.

Lemma handleChange_errors e s :
  errors (handleChange e s) =
  if truthy (errors s !! target_name e)
  then <[target_name e := None]> (errors s) else errors s.
Proof. unfold handleChange. by destruct (truthy _). Qed.

Lemma truthy_is_Some (v : option (option jsstring)) :
  truthy v = true → is_Some v.
Proof. destruct v; [by eexists | done]. Qed.

Lemma assign_same e1 e2 fd :
  target_name e1 = target_name e2 → assign e2 (assign e1 fd) = assign e2 fd.
Proof. by destruct e1, e2. Qed.

Lemma assign_comm e1 e2 fd :
  target_name e1 ≠ target_name e2 →
  assign e1 (assign e2 fd) = assign e2 (assign e1 fd).
Proof. by destruct e1, e2. Qed.

(** The entry of every key in [newErrors]. *)
Lemma newErrors_lookup fd k :
  newErrors fd !! k =
  if decide (k = "brand") then
    if falsy (trim (brand fd)) then Some (js "Brand name is required") else None
  else if decide (k = "category") then
    if falsy (trim (category fd)) then Some (js "Category is required") else None
  else if decide (k = "originalPrice") then
    if falsy (trim (originalPrice fd)) then Some (js "Original price is required")
    else if test priceRegExp (originalPrice fd) then None
         else Some (js "Please enter a valid number")
  else None.
Proof.
  repeat case_decide; subst.
  - apply newErrors_brand.
  - apply newErrors_category.
  - apply newErrors_originalPrice.
  - unfold newErrors.
    destruct (falsy (trim (brand fd))), (falsy (trim (category fd))),
      (falsy (trim (originalPrice fd))), (test priceRegExp (originalPrice fd));
      cbn [negb]; cbv zeta; rewrite ?lookup_insert_ne by done;
      apply (lookup_empty (M:=gmap string)).
Qed.

Lemma handleChange_result e s : result (handleChange e s) = result s.
Proof. apply handleChange_outside. Qed.

Lemma handleChange_isLoading e s : isLoading (handleChange e s) = isLoading s.
Proof. apply handleChange_outside. Qed.

Lemma handleChange_calls e s : calls (handleChange e s) = calls s.
Proof. apply handleChange_outside. Qed.

Lemma handleChange_awaiting e s : awaiting (handleChange e s) = awaiting s.
Proof. apply handleChange_outside. Qed.

Lemma handleChange_console e s : console (handleChange e s) = console s.
Proof. apply handleChange_outside. Qed.

End change.

(** Rewriting with what [handleChange] does to each cell. *)
Ltac change_cells :=
  rewrite ?handleChange_formData, ?handleChange_errors, ?handleChange_result,
    ?handleChange_isLoading, ?handleChange_calls, ?handleChange_awaiting,
    ?handleChange_console.

(** X1.  [handleChange] leaves the entry of its field in [errors] falsy, does
    not touch the entry of any other key, and removes no key: a cleared
    error stays in the object as [null]. *)
Theorem handleChange_clears_its_error (e : ChangeEvent) (s : State) :
  truthy (errors (handleChange e s) !! target_name e) = false
  ∧ (∀ k, k ≠ target_name e → errors (handleChange e s) !! k = errors s !! k)
  ∧ dom (errors (handleChange e s)) = dom (errors s).
Proof.
  rewrite handleChange_errors.
  destruct (truthy (errors s !! target_name e)) eqn:Ht; [| done].
  split_and!.
  - by rewrite lookup_insert_eq.
  - intros k Hk. by rewrite lookup_insert_ne.
  - apply truthy_is_Some, elem_of_dom in Ht.
    rewrite dom_insert_L. apply subseteq_union_1_L.
    by apply singleton_subseteq_l.
Qed.

(** X2.  Two changes of the same control in a row leave what the second
    alone leaves: the last value wins and the error is cleared once. *)
Theorem handleChange_last_wins (e1 e2 : ChangeEvent) (s : State) :
  target_name e1 = target_name e2 →
  handleChange e2 (handleChange e1 s) = handleChange e2 s.
Proof.
  intros Hn. apply State_eq; change_cells; try done.
  - by apply assign_same.
  - rewrite <- Hn.
    destruct (truthy (errors s !! target_name e1)) eqn:Ht.
    + by rewrite lookup_insert_eq.
    + by rewrite Ht.
Qed.

Lemma handleChange_last_wins_witness :
  let e1 := change_brand (js "N") in
  let e2 := change_brand (js "Nike") in
  target_name e1 = target_name e2
  ∧ handleChange e2 (handleChange e1 (handleSubmit init)) =
      handleChange e2 (handleSubmit init).
Proof.
  intros e1 e2. split; [reflexivity |].
  apply (handleChange_last_wins e1 e2 (handleSubmit init)). reflexivity.
Defined.

(** X3.  Changes of two different controls commute. *)
Theorem handleChange_commute (e1 e2 : ChangeEvent) (s : State) :
  target_name e1 ≠ target_name e2 →
  handleChange e1 (handleChange e2 s) = handleChange e2 (handleChange e1 s).
Proof.
  intros Hn. apply State_eq; change_cells; try done.
  - by apply assign_comm.
  - destruct (truthy (errors s !! target_name e1)) eqn:H1,
      (truthy (errors s !! target_name e2)) eqn:H2;
      rewrite ?lookup_insert_ne by done; rewrite ?H1, ?H2; try done.
    by apply insert_insert_ne.
Qed.

Lemma handleChange_commute_witness :
  let e1 := change_brand (js "Nike") in
  let e2 := change_originalPrice (js "80") in
  target_name e1 ≠ target_name e2
  ∧ handleChange e1 (handleChange e2 (handleSubmit init)) =
      handleChange e2 (handleChange e1 (handleSubmit init)).
Proof.
  intros e1 e2.
  assert (Hn : target_name e1 ≠ target_name e2) by done.
  split; [exact Hn |].
  apply (handleChange_commute e1 e2 (handleSubmit init) Hn).
Defined.

(** X4.  The rules are per field: a change of one control can only alter the
    entry of that control in [newErrors]; the two selects alter none. *)
Theorem newErrors_per_field (e : ChangeEvent) (fd : FormData) :
  (∀ k, k ≠ target_name e → newErrors (assign e fd) !! k = newErrors fd !! k)
  ∧ (target_name e = "clothingUse" ∨ target_name e = "yearsOld" →
     newErrors (assign e fd) = newErrors fd).
Proof.
  assert (H : ∀ k, k ≠ target_name e →
                   newErrors (assign e fd) !! k = newErrors fd !! k).
  { intros k Hk. rewrite !newErrors_lookup.
    destruct e; simpl in *; repeat case_decide; congruence. }
  split; [exact H |].
  intros Hsel. apply map_eq. intros k.
  destruct (decide (k = target_name e)) as [->|Hk]; [| by apply H].
  rewrite !newErrors_lookup.
  destruct Hsel as [-> | ->]; by repeat case_decide.
Qed.

(** ** The rules of [validateForm], field by field *)

Section rules.
Implicit Types (fd : FormData) (s : State) (l : jsstring) (c : N).

Lemma blank_or_not l :
  Forall (λ c, blank c) l ∨ ∃ c, c ∈ l ∧ isWhiteSpaceOrLineTerminator c = false.
Proof.
  induction l as [|c l [IH|(c' & Hin & Hc')]].
  - left. constructor.
  - destruct (isWhiteSpaceOrLineTerminator c) eqn:Hc.
    + left. by constructor.
    + right. exists c. split; [apply list_elem_of_here | done].
  - right. exists c'. split; [by apply list_elem_of_further | done].
Qed.

Lemma falsy_trim l : falsy (trim l) = true ↔ Forall (λ c, blank c) l.
Proof. by rewrite falsy_nil, trim_nil. Qed.

Lemma truthy_trim l :
  falsy (trim l) = false ↔ ∃ c, c ∈ l ∧ isWhiteSpaceOrLineTerminator c = false.
Proof.
  split.
  - intros Hf. destruct (blank_or_not l) as [Hb|Hex]; [| done].
    apply falsy_trim in Hb. congruence.
  - intros (c & Hin & Hc). apply not_true_is_false. intros Hb%falsy_trim.
    rewrite Forall_forall in Hb. apply list_elem_of_In in Hin.
    specialize (Hb c Hin). congruence.
Qed.

Lemma isDigit_not_dot c : isDigit c = true → isDot c = false.
Proof.
  intros [Hlo Hhi]%isDigit_bounds. unfold isDot. apply N.eqb_neq. lia.
Qed.

Lemma numeric_not_blank c : numeric c → isWhiteSpaceOrLineTerminator c = false.
Proof. intros [Hd| ->%isDot_spec]; [by apply isDigit_not_blank | done]. Qed.

Lemma digits_numeric l : Forall (λ c, isDigit c = true) l → Forall numeric l.
Proof. apply Forall_impl. intros c Hc. by left. Qed.

Lemma digits_no_dot l :
  Forall (λ c, isDigit c = true) l → filter (λ c, isDot c = true) l = [].
Proof.
  induction 1 as [|c l Hc _ IH]; [done |].
  rewrite filter_cons, IH. apply isDigit_not_dot in Hc.
  case_decide; [congruence | done].
Qed.

Lemma digits_last l :
  l ≠ [] → Forall (λ c, isDigit c = true) l →
  ∃ c, list.last l = Some c ∧ isDigit c = true.
Proof.
  intros Hne Hall. destruct (list.last l) as [c|] eqn:Hl.
  - exists c. split; [done |].
    rewrite Forall_forall in Hall. apply Hall, list_elem_of_In.
    apply last_Some in Hl as [l' ->]. apply elem_of_app. right.
    apply list_elem_of_here.
  - by apply last_None in Hl.
Qed.

End rules.

(** X6.  Brand and category get their "required" message exactly when every
    unit is blank (the empty string included); one unit that is not blank is
    enough to pass, wherever it stands. *)
Theorem required_iff_blank (fd : FormData) :
  (newErrors fd !! "brand" = Some (js "Brand name is required") ↔
     Forall (λ c, blank c) (brand fd))
  ∧ (newErrors fd !! "brand" = None ↔
     ∃ c, c ∈ brand fd ∧ isWhiteSpaceOrLineTerminator c = false)
  ∧ (newErrors fd !! "category" = Some (js "Category is required") ↔
     Forall (λ c, blank c) (category fd))
  ∧ (newErrors fd !! "category" = None ↔
     ∃ c, c ∈ category fd ∧ isWhiteSpaceOrLineTerminator c = false).
Proof.
  rewrite newErrors_brand, newErrors_category.
  rewrite <- !falsy_trim, <- !truthy_trim.
  destruct (falsy (trim (brand fd))), (falsy (trim (category fd)));
    split_and!; split; done.
Qed.

(** X7.  The price gets "Original price is required" exactly when every unit
    is blank, "Please enter a valid number" exactly when some unit is not
    blank and the string as typed, not trimmed, is outside the pattern, and
    no entry exactly when it has the pattern. *)
Theorem originalPrice_messages (fd : FormData) :
  let p := originalPrice fd in
  (newErrors fd !! "originalPrice" = Some (js "Original price is required") ↔
     Forall (λ c, blank c) p)
  ∧ (newErrors fd !! "originalPrice" = Some (js "Please enter a valid number") ↔
     ¬ Forall (λ c, blank c) p ∧ ¬ price_pattern p)
  ∧ (newErrors fd !! "originalPrice" = None ↔ price_pattern p).
Proof.
  intros p. rewrite newErrors_originalPrice. fold p.
  rewrite <- falsy_trim, <- test_price.
  assert (Hp : test priceRegExp p = true → falsy (trim p) = false).
  { intros [_ Ht]%test_price%price_pattern_trim. by apply falsy_cons. }
  destruct (falsy (trim p)) eqn:Hf, (test priceRegExp p) eqn:Ht;
    try (specialize (Hp eq_refl); discriminate);
    split_and!; split; try done; try (intros [? ?]; done).
Qed.

(** X8.  A price without an entry holds digits and points only, one point at
    most, starts and ends with a digit, and has no blank unit anywhere: no
    sign, no space around it, no separator of thousands. *)
Theorem accepted_price_shape (fd : FormData) :
  newErrors fd !! "originalPrice" = None →
  let p := originalPrice fd in
  Forall numeric p
  ∧ (length (filter (λ c, isDot c = true) p) ≤ 1)%nat
  ∧ (∃ c, head p = Some c ∧ isDigit c = true)
  ∧ (∃ c, list.last p = Some c ∧ isDigit c = true)
  ∧ Forall (λ c, isWhiteSpaceOrLineTerminator c = false) p.
Proof.
  intros Hnone p.
  assert (Hpat : price_pattern p).
  { apply test_price. revert Hnone. rewrite newErrors_originalPrice. fold p.
    destruct (falsy (trim p)); [done |].
    by destruct (test priceRegExp p). }
  destruct Hpat as (whole & frac & Hp & Hne & Hwhole & Hfrac).
  assert (Hnum : Forall numeric p).
  { rewrite Hp. apply Forall_app. split; [by apply digits_numeric |].
    destruct Hfrac as [->|(ds & -> & _ & Hds)]; [constructor |].
    constructor; [by right | by apply digits_numeric]. }
  split_and!.
  - exact Hnum.
  - rewrite Hp, list.filter_app, (digits_no_dot whole Hwhole).
    destruct Hfrac as [->|(ds & -> & _ & Hds)]; [simpl; lia |].
    rewrite filter_cons, (digits_no_dot ds Hds). simpl. lia.
  - rewrite Hp. destruct Hwhole as [|c w Hc _]; [done |]. by exists c.
  - rewrite Hp. destruct Hfrac as [->|(ds & -> & Hlen & Hds)].
    + rewrite app_nil_r. by apply digits_last.
    + destruct (digits_last ds) as (c & Hl & Hc); [| done |].
      * intros ->. simpl in Hlen. lia.
      * exists c. split; [| done].
        rewrite last_app. rewrite last_cons, Hl. done.
  - revert Hnum. apply Forall_impl. apply numeric_not_blank.
Qed.

Lemma accepted_price_shape_witness :
  let fd := assign (change_originalPrice (js "19.99")) defaultFormData in
  newErrors fd !! "originalPrice" = None
  ∧ Forall numeric (originalPrice fd)
  ∧ (length (filter (λ c, isDot c = true) (originalPrice fd)) ≤ 1)%nat.
Proof.
  intros fd.
  assert (H : newErrors fd !! "originalPrice" = None) by reflexivity.
  destruct (accepted_price_shape fd H) as (Hnum & Hdots & _).
  split_and!; [exact H | exact Hnum | exact Hdots].
Defined.

(** ** The reply, further *)

Section reply_more.
Implicit Types (fd : FormData) (s : State) (reply : jsstring) (c : Choice).

Lemma digits_and_points_numeric reply : Forall numeric (digits_and_points reply).
Proof.
  apply list.Forall_forall. intros x Hx.
  by apply list_elem_of_filter in Hx as [Hx _].
Qed.

Lemma digits_and_points_id reply :
  Forall numeric reply → digits_and_points reply = reply.
Proof.
  unfold digits_and_points. induction 1 as [|x reply Hx _ IH]; [done |].
  by rewrite filter_cons_True, IH.
Qed.

Lemma numericPrice_filter c :
  numericPrice c = digits_and_points (rawContent c).
Proof. unfold numericPrice. apply replace_notNumeric. Qed.

(** The price that [setResult] receives is not empty, and numeric. *)
Lemma or_else_numericPrice c :
  or_else (numericPrice c) (js "0") ≠ []
  ∧ Forall numeric (or_else (numericPrice c) (js "0")).
Proof.
  rewrite numericPrice_filter.
  pose proof (digits_and_points_numeric (rawContent c)) as H.
  destruct (digits_and_points (rawContent c)) as [|x l]; simpl.
  - split; [done |]. constructor; [by left | constructor].
  - done.
Qed.

(** A settled promise makes the [try] block end or fail. *)
Lemma resume_cases fd (o : Settled) s :
  (∃ c rest,
     o = Fulfilled {| choices := c :: rest |} ∧ thrown o = None ∧
     handleSubmit_resume fd o s =
     setIsLoading false
       (setResult (Some {| estimatedPrice := or_else (numericPrice c) (js "0");
                           data := fd |}) s))
  ∨ (∃ error,
       thrown o = Some error ∧
       handleSubmit_resume fd o s = setIsLoading false (console_error error s)).
Proof.
  destruct o as [[[|c rest]]|error].
  - right. by exists TypeError.
  - left. by exists c, rest.
  - right. by exists error.
Qed.

End reply_more.

(** X9.  A reply made of digits and points only, and not empty, is stored as
    it is; so is every reply of the price pattern. *)
Theorem numeric_reply_verbatim (fd : FormData) (reply : jsstring)
    (rest : list Choice) (s : State) :
  (reply ≠ [] ∧ Forall numeric reply) ∨ price_pattern reply →
  result (handleSubmit_resume fd
            (Fulfilled {| choices := {| message_content := Some reply |} :: rest |})
            s) =
    Some {| estimatedPrice := reply; data := fd |}.
Proof.
  intros H.
  assert (Hnum : reply ≠ [] ∧ Forall numeric reply).
  { destruct H as [H|Hpat]; [done |]. split; [by apply price_pattern_trim |].
    destruct Hpat as (whole & frac & -> & _ & Hwhole & Hfrac).
    apply Forall_app. split; [by apply digits_numeric |].
    destruct Hfrac as [->|(ds & -> & _ & Hds)]; [constructor |].
    constructor; [by right | by apply digits_numeric]. }
  destruct Hnum as [Hne Hall].
  rewrite resume_fulfilled_result. simpl.
  rewrite numericPrice_reply, (digits_and_points_id reply Hall).
  by destruct reply.
Qed.

Lemma numeric_reply_verbatim_witness :
  price_pattern (js "32.50")
  ∧ result (handleSubmit_resume defaultFormData
              (Fulfilled {| choices := [ {| message_content := Some (js "32.50") |} ] |})
              init) =
      Some {| estimatedPrice := js "32.50"; data := defaultFormData |}.
Proof.
  assert (H : price_pattern (js "32.50")) by (by apply test_price).
  split; [exact H |].
  apply (numeric_reply_verbatim defaultFormData (js "32.50") [] init).
  right. exact H.
Defined.

(** X10.  The replacement works unit by unit: what is kept of two texts put
    together is what is kept of each, put together.  Numbers that stand
    apart in a reply are therefore joined into one string. *)
Theorem numericPrice_app (a b : jsstring) :
  numericPrice {| message_content := Some (a ++ b) |} =
  numericPrice {| message_content := Some a |}
  ++ numericPrice {| message_content := Some b |}.
Proof.
  unfold numericPrice, rawContent. simpl.
  rewrite !or_else_nil_r. unfold replaceClassAll. apply bind_app.
Qed.

(** X11.  A choice whose content is [null] or the empty string gives the
    price ["0"], and only the first choice is read. *)
Theorem estimatedPrice_no_content (fd : FormData) (c : Choice)
    (rest : list Choice) (s : State) :
  message_content c = None ∨ message_content c = Some [] →
  result (handleSubmit_resume fd (Fulfilled {| choices := c :: rest |}) s) =
    Some {| estimatedPrice := js "0"; data := fd |}.
Proof.
  intros H. rewrite resume_fulfilled_result. simpl.
  unfold numericPrice, rawContent. by destruct H as [-> | ->].
Qed.

Lemma estimatedPrice_no_content_witness :
  let c := {| message_content := None |} in
  (message_content c = None ∨ message_content c = Some [])
  ∧ result (handleSubmit_resume defaultFormData
              (Fulfilled {| choices := [c] |}) init) =
      Some {| estimatedPrice := js "0"; data := defaultFormData |}.
Proof.
  intros c.
  assert (H : message_content c = None ∨ message_content c = Some [])
    by (left; reflexivity).
  split; [exact H |].
  apply (estimatedPrice_no_content defaultFormData c [] init H).
Defined.

(** ** Runs, further *)

Section runs_more.
Implicit Types (fd : FormData) (s : State) (ev : Event) (evs : list Event).

Lemma run_invariant (P : State → Prop) evs s :
  (∀ ev s, P s → P (handle ev s)) → P s → P (run evs s).
Proof.
  intros Hstep. revert s. induction evs as [|ev evs IH]; intros s Hs; [done |].
  simpl. apply IH. by apply Hstep.
Qed.

Lemma settle_cases (i : nat) (o : Settled) s :
  (awaiting s !! i = None ∧ settle i o s = s)
  ∨ (∃ fd, awaiting s !! i = Some fd ∧
           settle i o s = handleSubmit_resume fd o (resumed i s)).
Proof.
  unfold settle. destruct (awaiting s !! i) as [fd|]; [right; by exists fd | by left].
Qed.

Lemma newErrors_known fd k (m : jsstring) :
  newErrors fd !! k = Some m → m ≠ [] ∧ known_entry k (Some m).
Proof.
  rewrite newErrors_lookup. unfold known_entry.
  repeat case_decide; subst;
    repeat match goal with |- context [if ?b then _ else _] => destruct b end;
    intros [= <-]; (split; [done |]); tauto.
Qed.

Lemma known_entry_null k (v : option jsstring) :
  known_entry k v → known_entry k None.
Proof. unfold known_entry. intros [[-> _]|[[-> _]|[-> _]]]; tauto. Qed.

Lemma handle_errors_known ev s : errors_known s → errors_known (handle ev s).
Proof.
  intros Hs.
  assert (Hnew : ∀ fd, errors_known (setErrors (Some <$> newErrors fd) s)).
  { intros fd k v. simpl. rewrite lookup_fmap.
    destruct (newErrors fd !! k) as [m|] eqn:Hm; intros [= <-].
    by apply newErrors_known in Hm as [_ ?]. }
  destruct ev as [e| | | |i o]; simpl.
  - intros k v. rewrite handleChange_errors.
    destruct (truthy (errors s !! target_name e)) eqn:Ht; [| apply Hs].
    destruct (decide (k = target_name e)) as [->|Hk].
    + rewrite lookup_insert_eq. intros [= <-].
      apply truthy_is_Some in Ht as [v Hv].
      by apply (known_entry_null _ v), Hs.
    + rewrite lookup_insert_ne by done. apply Hs.
  - apply Hnew.
  - destruct (handleSubmit_cases s) as [[_ ->]|[_ ->]]; [apply Hnew |].
    intros k v. simpl. by rewrite lookup_empty.
  - intros k v. simpl. by rewrite lookup_empty.
  - destruct (settle_cases i o s) as [[_ ->]|(fd & _ & ->)]; [done |].
    intros k v. destruct (resume_outside fd o (resumed i s)) as (_ & _ & -> & _).
    apply Hs.
Qed.

Lemma handle_price_numeric ev s : price_numeric s → price_numeric (handle ev s).
Proof.
  intros Hs. destruct ev as [e| | | |i o]; simpl.
  - intros r. rewrite handleChange_result. apply Hs.
  - done.
  - destruct (handleSubmit_cases s) as [[_ ->]|[_ ->]]; done.
  - by intros r.
  - destruct (settle_cases i o s) as [[_ ->]|(fd & _ & ->)]; [done |].
    destruct (resume_cases fd o (resumed i s))
      as [(c & rest & _ & _ & ->)|(error & _ & ->)]; [| done].
    intros r [= <-]. apply or_else_numericPrice.
Qed.

Lemma handle_calls_accounted ev s :
  calls_accounted s → calls_accounted (handle ev s).
Proof.
  intros [Hcalls Hlen]. destruct ev as [e| | | |i o]; simpl.
  - unfold calls_accounted.
    by rewrite handleChange_calls, handleChange_console, handleChange_awaiting.
  - done.
  - destruct (handleSubmit_cases s) as [[_ ->]|[Hv ->]]; [done |].
    split; simpl.
    + apply Forall_app. split; [done |]. constructor; [| constructor].
      by exists (formData s).
    + rewrite !length_app. simpl. lia.
  - done.
  - destruct (settle_cases i o s) as [[_ ->]|(fd & Hi & ->)]; [done |].
    assert (Hdel : (length (delete i (awaiting s)) + 1 = length (awaiting s))%nat).
    { rewrite length_delete by (by eexists).
      apply lookup_lt_Some in Hi. lia. }
    destruct (resume_cases fd o (resumed i s))
      as [(c & rest & _ & _ & ->)|(error & _ & ->)]; split; simpl; try done.
    + lia.
    + rewrite length_app. simpl. lia.
Qed.

(** Changes touch the form and the errors only. *)
Lemma run_changes_outside (changes : list ChangeEvent) s :
  result (run (Change <$> changes) s) = result s ∧
  isLoading (run (Change <$> changes) s) = isLoading s ∧
  calls (run (Change <$> changes) s) = calls s ∧
  awaiting (run (Change <$> changes) s) = awaiting s ∧
  console (run (Change <$> changes) s) = console s.
Proof.
  revert s. induction changes as [|e changes IH]; intros s; [done |].
  change (run (Change <$> e :: changes) s)
    with (run (Change <$> changes) (handleChange e s)).
  destruct (IH (handleChange e s)) as (-> & -> & -> & -> & ->).
  apply handleChange_outside.
Qed.

Lemma init_errors_known : errors_known init.
Proof. intros k v. simpl. by rewrite lookup_empty. Qed.

Lemma init_price_numeric : price_numeric init.
Proof. by intros r. Qed.

Lemma init_calls_accounted : calls_accounted init.
Proof. split; [constructor | simpl; lia]. Qed.

End runs_more.

(** X5.  Whatever the handlers are made to do, [errors] only ever has the
    keys [brand], [category] and [originalPrice], and under each [null] or
    one of the messages of that field. *)
Theorem errors_entries_known (evs : list Event) (k : string)
    (v : option jsstring) :
  errors (run evs init) !! k = Some v →
  known_entry k v
  ∧ k ∈ ["brand"; "category"; "originalPrice"].
Proof.
  intros H.
  assert (Hk : known_entry k v).
  { by apply (run_invariant errors_known evs init handle_errors_known
                init_errors_known). }
  split; [exact Hk |].
  destruct Hk as [[-> _]|[[-> _]|[-> _]]]; set_solver.
Qed.

Lemma errors_entries_known_witness :
  let evs := [Submit; Change (change_brand (js "Nike"))] in
  errors (run evs init) !! "brand" = Some None
  ∧ known_entry "brand" None.
Proof.
  intros evs.
  assert (H : errors (run evs init) !! "brand" = Some None) by (by vm_compute).
  split; [exact H |].
  apply (errors_entries_known evs "brand" None H).
Defined.

(** X12.  Whatever the handlers are made to do and whatever the service
    answers, a stored price is not empty and holds digits and decimal points
    only. *)
Theorem stored_price_numeric (evs : list Event) (r : Result) :
  result (run evs init) = Some r →
  estimatedPrice r ≠ [] ∧ Forall numeric (estimatedPrice r).
Proof.
  apply (run_invariant price_numeric evs init handle_price_numeric
           init_price_numeric).
Qed.

Lemma stored_price_numeric_witness :
  let evs :=
    nikeHoodie ++
    [ Submit;
      Settle 0 (Fulfilled {| choices :=
        [ {| message_content := Some (js "About $32.50, maybe.") |} ] |}) ] in
  let r := {| estimatedPrice := js "32.50.";
              data := formData (run nikeHoodie init) |} in
  result (run evs init) = Some r
  ∧ estimatedPrice r ≠ [] ∧ Forall numeric (estimatedPrice r).
Proof.
  intros evs r.
  assert (H : result (run evs init) = Some r) by reflexivity.
  split; [exact H |].
  apply (stored_price_numeric evs r H).
Defined.

(** X13.  Whatever the handlers are made to do, every call made to the
    service is the call of a form that passed validation, with the fixed
    model, limits and system message; and no error is on the console, and
    no activation waits, without a call of its own. *)
Theorem calls_valid_and_accounted (evs : list Event) :
  let s := run evs init in
  Forall (λ p, ∃ fd, p = createParams fd ∧ newErrors fd = ∅) (calls s)
  ∧ (length (console s) + length (awaiting s) ≤ length (calls s))%nat.
Proof.
  apply (run_invariant calls_accounted evs init handle_calls_accounted
           init_calls_accounted).
Qed.

(** X14.  The result carries the form as it was when it was submitted: the
    controls stay live while the request waits, but what is typed meanwhile
    reaches neither the stored result nor the page that shows it. *)
Theorem snapshot_survives_edits (s : State) (changes : list ChangeEvent)
    (c : Choice) (rest : list Choice) :
  newErrors (formData s) = ∅ →
  let price := or_else (numericPrice c) (js "0") in
  let s1 := run (Change <$> changes) (handleSubmit s) in
  let s2 := settle (length (awaiting s)) (Fulfilled {| choices := c :: rest |}) s1 in
  result s2 = Some {| estimatedPrice := price; data := formData s |}
  ∧ formData s2 = formData s1
  ∧ render s2 =
      ResultPage (js "Estimated Resell Price: $" ++ price)
        (brand (formData s)) (category (formData s))
        (js "$" ++ originalPrice (formData s))
        (clothingUse_string (clothingUse (formData s)))
        (yearsOld_string (yearsOld (formData s))).
Proof.
  intros Hv price s1 s2.
  assert (Hi : awaiting s1 !! length (awaiting s) = Some (formData s)).
  { unfold s1.
    destruct (run_changes_outside changes (handleSubmit s)) as (_ & _ & _ & -> & _).
    rewrite (handleSubmit_valid s Hv). simpl. by rewrite list_lookup_middle. }
  assert (Hs2 : s2 =
    setIsLoading false
      (setResult (Some {| estimatedPrice := price; data := formData s |})
         (resumed (length (awaiting s)) s1))).
  { unfold s2, settle. by rewrite Hi. }
  rewrite Hs2. split_and!; reflexivity.
Qed.

Lemma snapshot_survives_edits_witness :
  let s := run nikeHoodie init in
  let c := {| message_content := Some (js "32") |} in
  let s1 := run (Change <$> [change_brand (js "Adidas")]) (handleSubmit s) in
  newErrors (formData s) = ∅
  ∧ result (settle (length (awaiting s)) (Fulfilled {| choices := [c] |}) s1) =
      Some {| estimatedPrice := or_else (numericPrice c) (js "0");
              data := formData s |}.
Proof.
  intros s c s1.
  assert (Hv : newErrors (formData s) = ∅) by (by vm_compute).
  split; [exact Hv |].
  destruct (snapshot_survives_edits s [change_brand (js "Adidas")] c [] Hv)
    as (Hres & _).
  exact Hres.
Defined.

(** X15.  Every submit computes the errors afresh from the form alone: after
    it the error state is [newErrors] and nothing of the previous one is
    left, no [null] entry either; after a valid submit it is empty. *)
Theorem handleSubmit_errors_afresh (s : State) :
  errors (handleSubmit s) = Some <$> newErrors (formData s)
  ∧ (∀ k, errors (handleSubmit s) !! k ≠ Some None)
  ∧ (newErrors (formData s) = ∅ → errors (handleSubmit s) = ∅).
Proof.
  assert (H : errors (handleSubmit s) = Some <$> newErrors (formData s)).
  { destruct (handleSubmit_cases s) as [[_ ->]|[Hv ->]]; [done |].
    simpl. by rewrite Hv, fmap_empty. }
  rewrite H. split_and!; [done | |].
  - intros k. rewrite lookup_fmap. by destruct (newErrors (formData s) !! k).
  - intros ->. apply fmap_empty.
Qed.

(** X16.  When the promise of a waiting activation settles, the loading flag
    is cleared whatever the outcome, the activation leaves the list, the
    form, the errors and the calls stay, and exactly one of two things
    happens: a result is stored with the form of that activation, or one
    error is written to the console and the result stays. *)
Theorem settle_outcome (s : State) (i : nat) (fd : FormData) (o : Settled) :
  awaiting s !! i = Some fd →
  let s1 := settle i o s in
  isLoading s1 = false
  ∧ awaiting s1 = delete i (awaiting s)
  ∧ formData s1 = formData s ∧ errors s1 = errors s ∧ calls s1 = calls s
  ∧ ((thrown o = None ∧ console s1 = console s ∧
      ∃ r, result s1 = Some r ∧ data r = fd)
     ∨ (∃ error, thrown o = Some error ∧ console s1 = console s ++ [error] ∧
                 result s1 = result s)).
Proof.
  intros Hi s1. unfold s1, settle. rewrite Hi.
  destruct (resume_cases fd o (resumed i s))
    as [(c & rest & _ & Hth & ->)|(error & Hth & ->)].
  - split_and!; try done. left. split_and!; try done. by eexists.
  - split_and!; try done. right. by exists error.
Qed.

Lemma settle_outcome_witness :
  let s := run (nikeHoodie ++ [Submit]) init in
  let o := Fulfilled {| choices := [] |} in
  awaiting s !! 0%nat = Some (formData s)
  ∧ isLoading (settle 0 o s) = false
  ∧ awaiting (settle 0 o s) = [].
Proof.
  intros s o.
  assert (Hi : awaiting s !! 0%nat = Some (formData s)) by reflexivity.
  destruct (settle_outcome s 0 (formData s) o Hi) as (Hl & Ha & _).
  split_and!; [exact Hi | exact Hl | exact Ha].
Defined.

(** X17.  While the page shows a result no request waits and the loading
    flag is down; the only thing the page offers is "Price Another Item". *)
Theorem result_page_only_reset (s : State) :
  on_page s → result s ≠ None →
  isLoading s = false ∧ awaiting s = []
  ∧ offered Reset s = true
  ∧ ∀ ev, offered ev s = true → ev = Reset.
Proof.
  intros Hpage Hres.
  destruct (on_page_idle_or_loading s Hpage) as [[Ha Hl]|(fd & _ & _ & Hr)];
    [| done].
  split_and!; try done.
  - by apply bool_decide_eq_true.
  - intros [e| | | |i o] Hoff; simpl in Hoff; try done.
    + by apply bool_decide_eq_true in Hoff.
    + by apply andb_true_iff in Hoff as [Hoff%bool_decide_eq_true _].
    + apply bool_decide_eq_true in Hoff. rewrite Ha in Hoff. simpl in Hoff. lia.
Qed.

(** The page reached by a given list of offered events. *)
Ltac on_page_run :=
  cbv [run foldl app nikeHoodie];
  repeat (apply on_page_step; [| reflexivity]);
  apply on_page_init.

Lemma result_page_only_reset_witness :
  let s :=
    run (nikeHoodie ++
         [ Submit;
           Settle 0 (Fulfilled
             {| choices := [ {| message_content := Some (js "32") |} ] |}) ])
      init in
  on_page s ∧ result s ≠ None ∧ offered Submit s = false.
Proof.
  intros s.
  assert (Hpage : on_page s) by (unfold s; on_page_run).
  assert (Hres : result s ≠ None) by done.
  destruct (result_page_only_reset s Hpage Hres) as (_ & _ & _ & Honly).
  split_and!; [exact Hpage | exact Hres |].
  destruct (offered Submit s) eqn:Hoff; [| reflexivity].
  discriminate (Honly Submit Hoff).
Defined.

(** X18.  From the page that shows a result, "Price Another Item" brings the
    component back to its first render: the four cells are those of [init],
    nothing waits, and the page is the empty form again. *)
Theorem reset_to_first_render (s : State) :
  on_page s → result s ≠ None →
  let s1 := handleReset s in
  formData s1 = formData init ∧ result s1 = result init
  ∧ errors s1 = errors init ∧ isLoading s1 = isLoading init
  ∧ awaiting s1 = awaiting init
  ∧ render s1 = render init
  ∧ on_page s1.
Proof.
  intros Hpage Hres s1.
  destruct (on_page_idle_or_loading s Hpage) as [[Ha Hl]|(fd & _ & _ & Hr)];
    [| done].
  split_and!; try done.
  - unfold render. simpl. by rewrite Hl.
  - apply (on_page_step Reset s Hpage). simpl. by apply bool_decide_eq_true.
Qed.

Lemma reset_to_first_render_witness :
  let s :=
    run (nikeHoodie ++
         [ Submit;
           Settle 0 (Fulfilled
             {| choices := [ {| message_content := Some (js "32") |} ] |}) ])
      init in
  on_page s ∧ result s ≠ None ∧ formData (handleReset s) = defaultFormData.
Proof.
  intros s.
  assert (Hpage : on_page s) by (unfold s; on_page_run).
  assert (Hres : result s ≠ None) by done.
  destruct (reset_to_first_render s Hpage Hres) as (Hfd & _).
  split_and!; [exact Hpage | exact Hres | exact Hfd].
Defined.

(** ** The page *)

Section page.
Implicit Types (fd : FormData) (s : State) (k : string).

(** After a submit an entry of [errors] is a message of [newErrors], which
    is not empty: it is shown as it is, with the red border. *)
Lemma shown_after_submit s k :
  shown (errors (handleSubmit s) !! k) = newErrors (formData s) !! k
  ∧ truthy (errors (handleSubmit s) !! k) =
      bool_decide (is_Some (newErrors (formData s) !! k)).
Proof.
  assert (H : errors (handleSubmit s) = Some <$> newErrors (formData s)).
  { destruct (handleSubmit_cases s) as [[_ ->]|[Hv ->]]; [done |].
    simpl. by rewrite Hv, fmap_empty. }
  rewrite H, lookup_fmap.
  destruct (newErrors (formData s) !! k) as [m|] eqn:Hm; simpl.
  - apply newErrors_known in Hm as [Hne _]. by destruct m.
  - done.
Qed.

Lemma handleSubmit_form_result s :
  formData (handleSubmit s) = formData s ∧ result (handleSubmit s) = result s.
Proof. by destruct (handleSubmit_cases s) as [[_ ->]|[_ ->]]. Qed.

End page.

(** X19.  After a submit from the form, the page is the form with the values
    as typed; under each text input stands the message that [newErrors] has
    for it, with a red border, or nothing; the button is disabled and reads
    "Calculating..." when the form passed, and is as before when it did
    not. *)
Theorem page_after_submit (s : State) :
  result s = None →
  let fd := formData s in
  let input v k :=
    {| input_value := v;
       input_invalid := bool_decide (is_Some (newErrors fd !! k));
       input_message := newErrors fd !! k |} in
  let loading :=
    if decide (newErrors fd = ∅) then true else isLoading s in
  render (handleSubmit s) =
    FormPage (input (brand fd) "brand") (input (category fd) "category")
      (input (originalPrice fd) "originalPrice")
      (clothingUse fd) (yearsOld fd) loading
      (if loading then js "Calculating..." else js "Generate your price").
Proof.
  intros Hres fd input loading. unfold render, textInput.
  destruct (handleSubmit_form_result s) as [-> ->]. rewrite Hres.
  destruct (shown_after_submit s "brand") as [-> ->],
    (shown_after_submit s "category") as [-> ->],
    (shown_after_submit s "originalPrice") as [-> ->].
  assert (Hl : isLoading (handleSubmit s) = loading).
  { unfold loading.
    destruct (handleSubmit_cases s) as [[Hv ->]|[Hv ->]]; by case_decide. }
  by rewrite Hl.
Qed.

Lemma page_after_submit_witness :
  result init = None
  ∧ ∃ b c p u y d l,
      render (handleSubmit init) = FormPage b c p u y d l
      ∧ input_message b = Some (js "Brand name is required")
      ∧ d = false.
Proof.
  assert (H : result init = None) by reflexivity.
  split; [exact H |].
  pose proof (page_after_submit init H) as Hpage.
  do 7 eexists. split; [exact Hpage |]. split; reflexivity.
Defined.

(** X20.  On the page the button is disabled and reads "Calculating..."
    exactly while a request waits, and reads "Generate your price"
    otherwise; a result is never shown while one waits. *)
Theorem page_loading (s : State) :
  on_page s →
  match render s with
  | ResultPage _ _ _ _ _ _ => isLoading s = false ∧ awaiting s = []
  | FormPage _ _ _ _ _ disabled label =>
      (disabled = true ↔ awaiting s ≠ [])
      ∧ label = (if disabled then js "Calculating..."
                 else js "Generate your price")
  end.
Proof.
  intros Hpage. unfold render.
  destruct (on_page_idle_or_loading s Hpage) as [[Ha Hl]|(fd & Ha & Hl & Hr)].
  - rewrite Ha, Hl. by destruct (result s).
  - rewrite Ha, Hl, Hr. done.
Qed.

Lemma page_loading_witness :
  let s := run (nikeHoodie ++ [Submit]) init in
  on_page s
  ∧ match render s with
    | ResultPage _ _ _ _ _ _ => isLoading s = false ∧ awaiting s = []
    | FormPage _ _ _ _ _ disabled label =>
        (disabled = true ↔ awaiting s ≠ [])
        ∧ label = (if disabled then js "Calculating..."
                   else js "Generate your price")
    end.
Proof.
  intros s.
  assert (Hpage : on_page s) by (unfold s; on_page_run).
  split; [exact Hpage |].
  exact (page_loading s Hpage).
Defined.
